(** * Student management: record store and form handlers

    A shallow embedding of [main.py]: the [Database] class (one SQLite
    table [students]) and the [StudentManagementApp] button handlers,
    followed by the properties of the specification.

    Conventions of the embedding.
    - A Python [str] is a list of 8-bit characters ([str]); SQLite folds
      case for the 26 ASCII letters only, which is what [lower] does.
    - A Python [float] is modelled by its value: a rational, an infinity or
      not-a-number ([pyfloat]); only comparisons are performed on grades.
    - The built-ins [float(text)] and [str(float)] are taken as section
      variables [py_float] and [float_str]: the handlers are embedded for
      whatever these two functions compute.
    - Exhaustion of storage (disk space, the 63-bit rowid space) and
      failures of the file system are outside the model: row ids are
      unbounded integers, and a file that is written is written whole. *)

From Stdlib Require Import ZArith QArith List String Ascii Bool Lia.
From Stdlib Require Import DecimalString DecimalPos DecimalZ.
Import ListNotations.

Local Open Scope Z_scope.

(** ** Python values and exceptions *)

Module Py.

(** A [str]: its characters in order. *)
Definition str := list ascii.

Definition lit (s : string) : str := list_ascii_of_string s.

(** The value of a Python float. *)
Inductive pyfloat : Type :=
| NaN
| Inf (negative : bool)
| Fin (q : Q).

(** [a <= b] on floats: every comparison with not-a-number is false. *)
Definition fle (a b : pyfloat) : bool :=
  match a, b with
  | NaN, _ => false
  | _, NaN => false
  | Inf true, _ => true
  | _, Inf false => true
  | Inf false, _ => false
  | _, Inf true => false
  | Fin p, Fin q => Qle_bool p q
  end.

Definition of_Z (z : Z) : pyfloat := Fin (inject_Z z).

(** The constraints the SQLite schema can report. *)
Inductive constraint : Type :=
| NotNull_grade     (* grade REAL NOT NULL *)
| Check_grade.      (* CHECK(grade >= 0 AND grade <= 100) *)

Inductive exn : Type :=
| ValueError (msg : str)
| IndexError
| IntegrityError (c : constraint)
| OperationalError (msg : str).

Inductive result (A : Type) : Type :=
| Ok (a : A)
| Raise (e : exn).

Arguments Ok {A} a.
Arguments Raise {A} e.

Definition bind {A B} (m : result A) (k : A -> result B) : result B :=
  match m with
  | Ok a => k a
  | Raise e => Raise e
  end.

(** [str(n)] of an integer: its decimal digits, with a sign when negative. *)
Definition int_str (z : Z) : str :=
  list_ascii_of_string (NilZero.string_of_int (Z.to_int z)).

(** [int(text)] on a decimal numeral. *)
Definition int_of_str (s : str) : option Z :=
  option_map Z.of_int (NilZero.int_of_string (string_of_list_ascii s)).

End Py.

Import Py.

Notation "x <- m ;; k" := (bind m (fun x => k))
  (at level 61, m at next level, right associativity).

(** ** Text matching: the LIKE operator *)

Module Like.

Definition percent : ascii := "%"%char.
Definition underscore : ascii := "_"%char.

(** Case folding of LIKE: the upper-case ASCII letters only. *)
Definition lower (c : ascii) : ascii :=
  let n := nat_of_ascii c in
  if ((65 <=? n) && (n <=? 90))%nat then ascii_of_nat (n + 32) else c.

(** [like pat s] is the pattern comparison behind [s LIKE pat], on the C
    strings: [%] stands for any run of characters, [_] for any one
    character, and any other character for itself up to the case of ASCII
    letters. There is no escape character. *)
Fixpoint like (pat s : str) : bool :=
  match pat with
  | [] => match s with [] => true | _ :: _ => false end
  | p :: pat' =>
      if Ascii.eqb p percent then
        (fix any (s : str) : bool :=
           like pat' s || match s with [] => false | _ :: s' => any s' end) s
      else
        match s with
        | [] => false
        | c :: s' =>
            (Ascii.eqb p underscore || Ascii.eqb (lower p) (lower c)) && like pat' s'
        end
  end.

Definition NUL : ascii := "000"%char.

(** A text as the C string that the comparison reads: the characters
    before its first NUL. *)
Fixpoint c_string (s : str) : str :=
  match s with
  | [] => []
  | c :: t => if Ascii.eqb c NUL then [] else c :: c_string t
  end.

(** SQLITE_MAX_LIKE_PATTERN_LENGTH, in bytes. *)
Definition max_pattern_length : Z := 50000.

(** The SQL function of [s LIKE pat]: a pattern of more bytes than the
    limit is refused, whatever it holds after a NUL; otherwise the pattern
    and the text are compared as C strings. *)
Definition like_function (pat s : str) : result bool :=
  if max_pattern_length <? Z.of_nat (List.length pat)
  then Raise (OperationalError (lit "LIKE or GLOB pattern too complex"))
  else Ok (like (c_string pat) (c_string s)).

End Like.

(** ** The writer and the reader of module [csv], dialect [excel] *)

Module Csv.

Definition delimiter : ascii := ","%char.
Definition quotechar : ascii := "034"%char.
Definition CR : ascii := "013"%char.
Definition LF : ascii := "010"%char.
Definition lineterminator : str := [CR; LF].

(** The characters that make the writer quote a field (QUOTE_MINIMAL). *)
Definition special (c : ascii) : bool :=
  Ascii.eqb c delimiter || Ascii.eqb c quotechar || existsb (Ascii.eqb c) lineterminator.

(** The characters of a field as written: a quote is doubled. *)
Fixpoint escape (field : str) : str :=
  match field with
  | [] => []
  | c :: t => if Ascii.eqb c quotechar then quotechar :: quotechar :: escape t
              else c :: escape t
  end.

Definition join_append (field : str) : str :=
  if existsb special field then quotechar :: escape field ++ [quotechar]
  else escape field.

Fixpoint join (fields : list str) : str :=
  match fields with
  | [] => []
  | [f] => join_append f
  | f :: fs => join_append f ++ delimiter :: join fs
  end.

(** [writer.writerow]: a record made of one empty field is written as a pair
    of quotes. *)
Definition writerow (fields : list str) : str :=
  match fields, join fields with
  | _ :: _, [] => [quotechar; quotechar]
  | _, rec => rec
  end ++ lineterminator.

Definition writerows (rows : list (list str)) : str := List.concat (map writerow rows).

(** Lines of a file opened with [newline=''] end at LF, at CR LF and at a
    CR that no LF follows; the last line may have no terminator.
    [line_end c t] holds when [c], followed by [t], is the last character of
    its line. *)
Definition line_end (c : ascii) (t : str) : bool :=
  match t with
  | [] => true
  | c2 :: _ => Ascii.eqb c LF || (Ascii.eqb c CR && negb (Ascii.eqb c2 LF))
  end.

Fixpoint count_lines (s : str) : nat :=
  match s with
  | [] => 0
  | c :: t => ((if line_end c t then 1 else 0) + count_lines t)%nat
  end.

(** The reader: the state machine of [csv.reader] for the same dialect. *)
Inductive rstate : Type :=
| START_RECORD | START_FIELD | IN_FIELD | IN_QUOTED_FIELD
| QUOTE_IN_QUOTED_FIELD | EAT_CRNL.

Record reader : Type := Reader {
  state : rstate;
  field : str;            (* the characters of the field being read *)
  fields : list str       (* the fields of the record being read *)
}.

Definition parse_reset : reader := Reader START_RECORD [] [].

Definition set_state (r : reader) (s : rstate) : reader :=
  Reader s (field r) (fields r).

Definition parse_add_char (r : reader) (c : ascii) : reader :=
  Reader (state r) (field r ++ [c]) (fields r).

Definition parse_save_field (r : reader) : reader :=
  Reader (state r) [] (fields r ++ [field r]).

Definition is_newline (c : ascii) : bool := Ascii.eqb c LF || Ascii.eqb c CR.

(** One step on a character, or on the end of a line ([None]); the result
    [None] is [csv.Error]. *)
Definition parse_process_char (r : reader) (c : option ascii) : option reader :=
  let start_field (r : reader) :=
    match c with
    | None => Some (set_state (parse_save_field r) START_RECORD)
    | Some ch =>
        if is_newline ch then Some (set_state (parse_save_field r) EAT_CRNL)
        else if Ascii.eqb ch quotechar then Some (set_state r IN_QUOTED_FIELD)
        else if Ascii.eqb ch delimiter then Some (parse_save_field r)
        else Some (set_state (parse_add_char r ch) IN_FIELD)
    end in
  match state r with
  | START_RECORD =>
      match c with
      | None => Some r
      | Some ch => if is_newline ch then Some (set_state r EAT_CRNL)
                   else start_field (set_state r START_FIELD)
      end
  | START_FIELD => start_field r
  | IN_FIELD =>
      match c with
      | None => Some (set_state (parse_save_field r) START_RECORD)
      | Some ch =>
          if is_newline ch then Some (set_state (parse_save_field r) EAT_CRNL)
          else if Ascii.eqb ch delimiter then Some (set_state (parse_save_field r) START_FIELD)
          else Some (parse_add_char r ch)
      end
  | IN_QUOTED_FIELD =>
      match c with
      | None => Some r
      | Some ch => if Ascii.eqb ch quotechar then Some (set_state r QUOTE_IN_QUOTED_FIELD)
                   else Some (parse_add_char r ch)
      end
  | QUOTE_IN_QUOTED_FIELD =>
      match c with
      | None => Some (set_state (parse_save_field r) START_RECORD)
      | Some ch =>
          if Ascii.eqb ch quotechar then Some (set_state (parse_add_char r ch) IN_QUOTED_FIELD)
          else if Ascii.eqb ch delimiter then Some (set_state (parse_save_field r) START_FIELD)
          else if is_newline ch then Some (set_state (parse_save_field r) EAT_CRNL)
          else Some (set_state (parse_add_char r ch) IN_FIELD)
      end
  | EAT_CRNL =>
      match c with
      | None => Some (set_state r START_RECORD)
      | Some ch => if is_newline ch then Some r else None
      end
  end.

Definition at_start_record (r : reader) : bool :=
  match state r with START_RECORD => true | _ => false end.

(** The records of a text: every character of a line is processed, then
    the end of the line; a record is complete when the machine is back in
    START_RECORD at the end of a line. At the end of the text an open quoted
    field is closed. *)
Fixpoint read_from (r : reader) (done : list (list str)) (s : str)
    : option (list (list str)) :=
  match s with
  | [] =>
      match field r, state r with
      | [], START_RECORD => Some done
      | [], IN_QUOTED_FIELD | _ :: _, _ => Some (done ++ [fields (parse_save_field r)])
      | [], _ => Some done
      end
  | c :: t =>
      match parse_process_char r (Some c) with
      | None => None
      | Some r1 =>
          if line_end c t then
            match parse_process_char r1 None with
            | None => None
            | Some r2 =>
                if at_start_record r2 then read_from parse_reset (done ++ [fields r2]) t
                else read_from r2 done t
            end
          else read_from r1 done t
      end
  end.

Definition reader_rows (s : str) : option (list (list str)) :=
  read_from parse_reset [] s.

(** The states in which a field can begin, and those in which it can end. *)
Definition opening (st : rstate) : Prop := st = START_RECORD \/ st = START_FIELD.
Definition closing (st : rstate) : Prop := st = IN_FIELD \/ st = QUOTE_IN_QUOTED_FIELD.

End Csv.

(** ** The record store: class [Database] *)

Module Database.

(** A row of [students(id, first_name, last_name, course, grade)]. *)
Record student : Type := Student {
  id : Z;
  first_name : str;
  last_name : str;
  course : str;
  grade : pyfloat
}.

(** The database file: the rows of the table in rowid order, and the entry
    of [sqlite_sequence] that AUTOINCREMENT keeps for the table (the largest
    rowid ever handed out). *)
Record table : Type := Table {
  rows : list student;
  seq : Z
}.

(** [initialize_db] on a new file: CREATE TABLE IF NOT EXISTS. *)
Definition initialize_db : table := Table [] 0.

(** The value bound for a float parameter: the driver binds not-a-number
    as NULL. *)
Definition bind_real (g : pyfloat) : option pyfloat :=
  match g with
  | NaN => None
  | _ => Some g
  end.

(** CHECK(grade >= 0 AND grade <= 100). *)
Definition check_grade (g : pyfloat) : bool :=
  fle (of_Z 0) g && fle g (of_Z 100).

(** The column constraints of a row being written: NOT NULL, then CHECK.
    A text parameter is never NULL, so only the grade can fail. *)
Definition constraints (g : pyfloat) : result pyfloat :=
  match bind_real g with
  | None => Raise (IntegrityError NotNull_grade)
  | Some v => if check_grade v then Ok v else Raise (IntegrityError Check_grade)
  end.

Definition max_rowid (l : list student) : Z :=
  fold_right (fun r m => Z.max (id r) m) 0 l.

(** AUTOINCREMENT: one more than the larger of the largest rowid in the
    table and the largest rowid ever handed out. *)
Definition next_rowid (db : table) : Z :=
  Z.max (max_rowid (rows db)) (seq db) + 1.

(** INSERT INTO students (first_name, last_name, course, grade) VALUES (?, ?, ?, ?) *)
Definition add_student (db : table) (first_name last_name course : str)
    (grade : pyfloat) : result table :=
  g <- constraints grade ;;
  let i := next_rowid db in
  Ok (Table (rows db ++ [Student i first_name last_name course g]) i).

(** The SET clause applied to one row; the id is not assigned. *)
Definition set_fields (first_name last_name course : str) (g : pyfloat)
    (r : student) : student :=
  Student (id r) first_name last_name course g.

Definition has_id (student_id : Z) (r : student) : bool := id r =? student_id.

(** UPDATE students SET first_name = ?, last_name = ?, course = ?, grade = ?
    WHERE id = ?
    The constraints are evaluated for each row the WHERE clause selects: a
    statement that selects no row cannot fail. *)
Definition update_student (db : table) (student_id : Z)
    (first_name last_name course : str) (grade : pyfloat) : result table :=
  if existsb (has_id student_id) (rows db) then
    g <- constraints grade ;;
    Ok (Table (map (fun r => if has_id student_id r
                             then set_fields first_name last_name course g r
                             else r) (rows db))
              (seq db))
  else Ok db.

(** DELETE FROM students WHERE id = ? *)
Definition delete_student (db : table) (student_id : Z) : table :=
  Table (filter (fun r => negb (has_id student_id r)) (rows db)) (seq db).

(** SELECT * FROM students *)
Definition get_all_students (db : table) : list student := rows db.

(** [first_name LIKE ? OR last_name LIKE ?] on one row. *)
Definition where_like (pattern : str) (r : student) : result bool :=
  a <- Like.like_function pattern (first_name r) ;;
  if a then Ok true else Like.like_function pattern (last_name r).

(** The rows that a WHERE clause keeps; the statement fails when the
    clause fails on a row. *)
Fixpoint select_where (cond : student -> result bool) (l : list student)
    : result (list student) :=
  match l with
  | [] => Ok []
  | r :: t =>
      b <- cond r ;;
      rest <- select_where cond t ;;
      Ok (if b then r :: rest else rest)
  end.

(** SELECT * FROM students WHERE first_name LIKE ? OR last_name LIKE ?
    with both parameters bound to [f'%{search_text}%']. *)
Definition search_students (db : table) (search_text : str) : result (list student) :=
  let pattern := Like.percent :: search_text ++ [Like.percent] in
  select_where (where_like pattern) (rows db).

Definition header : list str :=
  [lit "ID"; lit "First Name"; lit "Last Name"; lit "Course"; lit "Grade"].

Section CsvExport.

(** [str(x)] of a float, which the writer applies to a field that is not a
    string. *)
Variable float_str : pyfloat -> str.

(** The fields the writer receives for a fetched row. *)
Definition csv_fields (r : student) : list str :=
  [int_str (id r); first_name r; last_name r; course r; float_str (grade r)].

(** [export_to_csv]: the text written to the file at [file_path]. *)
Definition export_to_csv (db : table) : str :=
  Csv.writerow header ++ Csv.writerows (map csv_fields (rows db)).

End CsvExport.

End Database.

(** ** The form: class [StudentManagementApp] *)

Module App.

Import Database.

Inductive dialog : Type :=
| showinfo (title message : str)
| showerror (title message : str)
| showwarning (title message : str).

(** An item of the Treeview: the values shown in its five columns, and
    whether it is selected. *)
Record item : Type := Item {
  values : student;
  selected : bool
}.

Record app : Type := AppState {
  db : table;
  tree : list item;
  first_name_entry : str;
  last_name_entry : str;
  course_entry : str;
  grade_entry : str;
  search_entry : str;
  dialogs : list dialog;          (* the message boxes shown, oldest first *)
  files : list (str * str)        (* the files written: path and text *)
}.

(** How a button handler ends: it returns, or an exception leaves it. *)
Inductive outcome : Type :=
| Returned
| Uncaught (e : exn).

Definition set_db (g : app) (d : table) : app :=
  AppState d (tree g) (first_name_entry g) (last_name_entry g) (course_entry g)
           (grade_entry g) (search_entry g) (dialogs g) (files g).

Definition set_tree (g : app) (t : list item) : app :=
  AppState (db g) t (first_name_entry g) (last_name_entry g) (course_entry g)
           (grade_entry g) (search_entry g) (dialogs g) (files g).

Definition show (d : dialog) (g : app) : app :=
  AppState (db g) (tree g) (first_name_entry g) (last_name_entry g) (course_entry g)
           (grade_entry g) (search_entry g) (dialogs g ++ [d]) (files g).

Definition write_file (path text : str) (g : app) : app :=
  AppState (db g) (tree g) (first_name_entry g) (last_name_entry g) (course_entry g)
           (grade_entry g) (search_entry g) (dialogs g) (files g ++ [(path, text)]).

Definition insert_all (l : list student) : list item :=
  map (fun r => Item r false) l.

(** [load_students] on an empty tree, which is how it is always called. *)
Definition load_students (g : app) : app :=
  set_tree g (tree g ++ insert_all (get_all_students (db g))).

Definition refresh_students (g : app) : app :=
  load_students (set_tree g []).

(** [self.tree.selection()]: the selected items in display order. *)
Definition selection (g : app) : list item := filter selected (tree g).

(** [not s] for a string. *)
Definition is_empty (s : str) : bool :=
  match s with [] => true | _ :: _ => false end.

Section Handlers.

(** [float(text)]: the float, or the message of the ValueError. *)
Variable py_float : str -> str + pyfloat.
Variable float_str : pyfloat -> str.

Definition float_of (text : str) : result pyfloat :=
  match py_float text with
  | inl msg => Raise (ValueError msg)
  | inr x => Ok x
  end.

(** The check both forms share:
    [not first_name or not last_name or not course or not (0 <= grade <= 100)]. *)
Definition invalid_input (first_name last_name course : str) (grade : pyfloat) : bool :=
  is_empty first_name || is_empty last_name || is_empty course
  || negb (fle (of_Z 0) grade && fle grade (of_Z 100)).

(** A handler body under [try: ... except ValueError as e: showerror(...)].
    No statement of a body changes the state before a point that can
    raise, so the state at the handler is the state at entry. *)
Definition except_ValueError (g : app) (body : result app) : app * outcome :=
  match body with
  | Ok g' => (g', Returned)
  | Raise (ValueError msg) =>
      (show (showerror (lit "Error") (lit "Invalid data: " ++ msg)) g, Returned)
  | Raise e => (g, Uncaught e)
  end.

(** The same under [except IndexError: showwarning(...)]. *)
Definition except_IndexError (g : app) (body : result app) : app * outcome :=
  match body with
  | Ok g' => (g', Returned)
  | Raise IndexError =>
      (show (showwarning (lit "Warning") (lit "No student selected")) g, Returned)
  | Raise e => (g, Uncaught e)
  end.

(** [self.tree.selection()[0]] *)
Definition first_selected (g : app) : result item :=
  match selection g with
  | [] => Raise IndexError
  | it :: _ => Ok it
  end.

Definition add_student (g : app) : app * outcome :=
  except_ValueError g (
    let first_name := first_name_entry g in
    let last_name := last_name_entry g in
    let course := course_entry g in
    grade <- float_of (grade_entry g) ;;
    if invalid_input first_name last_name course grade
    then Raise (ValueError (lit "Invalid input"))
    else
      d <- Database.add_student (db g) first_name last_name course grade ;;
      Ok (refresh_students
            (show (showinfo (lit "Success") (lit "Student added successfully"))
                  (set_db g d)))).

Definition update_student (g : app) : app * outcome :=
  except_ValueError g (
    selected_item <- first_selected g ;;
    let student_id := id (values selected_item) in
    let first_name := first_name_entry g in
    let last_name := last_name_entry g in
    let course := course_entry g in
    grade <- float_of (grade_entry g) ;;
    if invalid_input first_name last_name course grade
    then Raise (ValueError (lit "Invalid input"))
    else
      d <- Database.update_student (db g) student_id first_name last_name course grade ;;
      Ok (refresh_students
            (show (showinfo (lit "Success") (lit "Student updated successfully"))
                  (set_db g d)))).

Definition delete_student (g : app) : app * outcome :=
  except_IndexError g (
    selected_item <- first_selected g ;;
    let student_id := id (values selected_item) in
    Ok (refresh_students
          (show (showinfo (lit "Success") (lit "Student deleted successfully"))
                (set_db g (Database.delete_student (db g) student_id))))).

(** The list is emptied before the store is asked: when the query raises,
    the exception leaves the handler and the list stays empty. *)
Definition search_students (g : app) : app * outcome :=
  let search_text := search_entry g in
  match Database.search_students (db g) search_text with
  | Ok found => (set_tree g (insert_all found), Returned)
  | Raise e => (set_tree g [], Uncaught e)
  end.

(** [file_path] is what the save dialog returned: empty when cancelled. *)
Definition export_to_csv (g : app) (file_path : str) : app :=
  if is_empty file_path then g
  else show (showinfo (lit "Success") (lit "Data exported successfully"))
            (write_file file_path (Database.export_to_csv float_str (db g)) g).

(** [select_student]: the entries take the values of the first selected
    item; with no selection the IndexError is passed over. *)
Definition select_student (g : app) : app :=
  match selection g with
  | [] => g
  | it :: _ =>
      let r := values it in
      AppState (db g) (tree g) (first_name r) (last_name r) (course r)
               (float_str (grade r)) (search_entry g) (dialogs g) (files g)
  end.

(** [__init__] on the table found in the database file. *)
Definition startup (d : table) : app :=
  load_students (AppState d [] [] [] [] [] [] [] []).

(** What the user can do. A click on a row selects that row alone, a
    control-click toggles it; both end in [select_student]. Closing the
    window and launching the program again keeps the database file. *)
Inductive field_name : Type := FirstName | LastName | Course | Grade | Search.

Inductive event : Type :=
| Type_in (f : field_name) (text : str)
| Click (row : nat)
| ControlClick (row : nat)
| Press_add
| Press_update
| Press_delete
| Press_search
| Press_export (file_path : str)
| Relaunch.

Definition set_entry (g : app) (f : field_name) (text : str) : app :=
  match f with
  | FirstName => AppState (db g) (tree g) text (last_name_entry g) (course_entry g)
                          (grade_entry g) (search_entry g) (dialogs g) (files g)
  | LastName => AppState (db g) (tree g) (first_name_entry g) text (course_entry g)
                         (grade_entry g) (search_entry g) (dialogs g) (files g)
  | Course => AppState (db g) (tree g) (first_name_entry g) (last_name_entry g) text
                       (grade_entry g) (search_entry g) (dialogs g) (files g)
  | Grade => AppState (db g) (tree g) (first_name_entry g) (last_name_entry g)
                      (course_entry g) text (search_entry g) (dialogs g) (files g)
  | Search => AppState (db g) (tree g) (first_name_entry g) (last_name_entry g)
                       (course_entry g) (grade_entry g) text (dialogs g) (files g)
  end.

Fixpoint select_only (row : nat) (t : list item) : list item :=
  match t with
  | [] => []
  | it :: t' =>
      match row with
      | O => Item (values it) true :: map (fun i => Item (values i) false) t'
      | S n => Item (values it) false :: select_only n t'
      end
  end.

Fixpoint toggle (row : nat) (t : list item) : list item :=
  match t with
  | [] => []
  | it :: t' =>
      match row with
      | O => Item (values it) (negb (selected it)) :: t'
      | S n => it :: toggle n t'
      end
  end.

Definition step (g : app) (e : event) : app :=
  match e with
  | Type_in f text => set_entry g f text
  | Click row =>
      if (row <? List.length (tree g))%nat
      then select_student (set_tree g (select_only row (tree g)))
      else select_student g
  | ControlClick row => select_student (set_tree g (toggle row (tree g)))
  | Press_add => fst (add_student g)
  | Press_update => fst (update_student g)
  | Press_delete => fst (delete_student g)
  | Press_search => fst (search_students g)
  | Press_export file_path => export_to_csv g file_path
  | Relaunch => startup (db g)
  end.

Definition run (g : app) (es : list event) : app := fold_left step es g.

(** The states of the program: what a sequence of user actions leads to
    from the first launch, on a new database file. *)
Definition reachable (g : app) : Prop :=
  exists es, g = run (startup initialize_db) es.

End Handlers.

End App.


(** ** Instances of the two built-ins, for the examples

    [float(text)] on the decimal numerals of integers, and [str(x)] as
    the exact decimal expansion of a float, which is what Python prints for
    the floats with few binary digits that the examples use. *)

Module Sample.

Definition py_float (text : str) : str + pyfloat :=
  match int_of_str text with
  | Some z => inr (of_Z z)
  | None => inl (lit "could not convert string to float")
  end.

Definition digit (n : Z) : ascii := ascii_of_nat (48 + Z.to_nat (n mod 10)).

Fixpoint frac_digits (fuel : nat) (n d : Z) : str :=
  match fuel with
  | O => []
  | S fuel' =>
      if n =? 0 then []
      else digit (10 * n / d) :: frac_digits fuel' ((10 * n) mod d) d
  end.

Definition float_str (x : pyfloat) : str :=
  match x with
  | NaN => lit "nan"
  | Inf true => lit "-inf"
  | Inf false => lit "inf"
  | Fin q =>
      let d := Zpos (Qden q) in
      let n := Z.abs (Qnum q) in
      let frac := frac_digits (Pos.size_nat (Qden q)) (n mod d) d in
      (if Qnum q <? 0 then lit "-" else []) ++ int_str (n / d) ++ lit "."
      ++ match frac with [] => lit "0" | _ :: _ => frac end
  end.

Definition anna : Database.student :=
  Database.Student 1 (lit "Anna") (lit "Lee") (lit "Math") (of_Z 90).
Definition ivan : Database.student :=
  Database.Student 2 (lit "Ivan") (lit "Ng") (lit "Physics") (Fin (171 # 2)).
Definition bob : Database.student :=
  Database.Student 3 (lit "Bob") (lit "Smith") (lit "Art") (of_Z 70).

(** The table after the three seed records were added. *)
Definition seed : Database.table := Database.Table [anna; ivan; bob] 3.

(** A table with one record, whose first name holds a NUL character. *)
Definition nul_in_name : Database.table :=
  Database.Table
    [Database.Student 1 (lit "a" ++ [Like.NUL] ++ lit "b") (lit "Lee") (lit "Math")
                      (of_Z 90)] 1.

(** A search text of 49999 characters: one more than a pattern can hold
    between its two [%]. *)
Definition long_text : str := repeat "a"%char (N.to_nat 49999).

(** A table with one record, whose first name holds a line feed. *)
Definition two_line_name : Database.table :=
  Database.Table
    [Database.Student 1 (lit "Mary" ++ [Csv.LF] ++ lit "Ann") (lit "Lee") (lit "Math")
                      (of_Z 90)] 1.

(** The form after a launch on table [d], with the four entries typed in. *)
Definition form (first_name last_name course grade : string) (d : Database.table)
    : App.app :=
  App.AppState d (App.insert_all (Database.rows d)) (lit first_name) (lit last_name)
               (lit course) (lit grade) [] [] [].

End Sample.

(** ** A second instance of [float(text)], for the examples

    [float(text)] on the plain decimal numerals: an optional minus sign,
    digits, and optionally a point followed by digits. The value is kept in
    lowest terms. *)

Module SampleDecimal.

Fixpoint split_point (s : str) : str * option str :=
  match s with
  | [] => ([], None)
  | c :: t =>
      if Ascii.eqb c "."%char then ([], Some t)
      else let (a, b) := split_point t in (c :: a, b)
  end.

Definition digits_value (s : str) : option Z :=
  option_map Z.of_uint (NilEmpty.uint_of_string (string_of_list_ascii s)).

Definition unsigned_value (body : str) : option Q :=
  let (whole, rest) := split_point body in
  let frac := match rest with Some f => f | None => [] end in
  match whole, digits_value whole, digits_value frac with
  | _ :: _, Some i, Some f =>
      let scale := 10 ^ Z.of_nat (List.length frac) in
      Some (Qred (Qmake (i * scale + f) (Z.to_pos scale)))
  | _, _, _ => None
  end.

Definition py_float (text : str) : str + pyfloat :=
  let (negative, body) :=
    match text with
    | c :: t => if Ascii.eqb c "-"%char then (true, t) else (false, text)
    | [] => (false, [])
    end in
  match unsigned_value body with
  | Some q => inr (Fin (if negative then Qred (Qopp q) else q))
  | None => inl (lit "could not convert string to float")
  end.

End SampleDecimal.

(** ** Vocabulary of the specification *)

Module Spec.

Import Database.

(** A grade in the closed interval [0, 100]. *)
Definition in_range (g : pyfloat) : Prop :=
  exists q, g = Fin q /\ (0 <= q /\ q <= 100)%Q.

(** [s] occurs in [t] as a run of consecutive characters. *)
Definition substring (s t : str) : Prop :=
  exists pre post, t = pre ++ s ++ post.

(** The same up to the case of ASCII letters. *)
Definition substring_nocase (s t : str) : Prop :=
  substring (map Like.lower s) (map Like.lower t).

(** No character of [s] is a wildcard of LIKE. *)
Definition literal (s : str) : Prop :=
  ~ In Like.percent s /\ ~ In Like.underscore s.

(** A record that satisfies the field constraints of the data model. *)
Definition valid (r : student) : Prop :=
  in_range (grade r) /\ first_name r <> [] /\ last_name r <> [] /\ course r <> [].

(** A table whose ids are pairwise distinct. *)
Definition unique_ids (d : table) : Prop := NoDup (map id (rows d)).

(** [r'] is what [update] makes of [r]: the record with the given id takes
    the new fields, any other record stays as it is. *)
Definition updated (student_id : Z) (first_name last_name course : str)
    (g : pyfloat) (r r' : student) : Prop :=
  (id r = student_id -> r' = Student student_id first_name last_name course g)
  /\ (id r <> student_id -> r' = r).

(** The invariant of the data model on a stored table. *)
Definition store_inv (d : table) : Prop :=
  Forall valid (rows d) /\ unique_ids d.

(** A call of the record store, as any caller can make it, and the table
    after it: a call that raises leaves the table as it was. *)
Inductive store_call : Type :=
| Call_add (first_name last_name course : str) (grade : pyfloat)
| Call_update (student_id : Z) (first_name last_name course : str) (grade : pyfloat)
| Call_delete (student_id : Z).

Definition after_call (d : table) (k : store_call) : table :=
  match k with
  | Call_add fn ln c g =>
      match add_student d fn ln c g with Ok d' => d' | Raise _ => d end
  | Call_update sid fn ln c g =>
      match update_student d sid fn ln c g with Ok d' => d' | Raise _ => d end
  | Call_delete sid => delete_student d sid
  end.

(** What the schema alone maintains. *)
Definition schema_inv (d : table) : Prop :=
  Forall (fun r => in_range (grade r)) (rows d) /\ unique_ids d.

(** A record of the exported file read back: the id with [int], the grade
    with [float], the three texts as they are. *)
Definition parse_record (py_float : str -> str + pyfloat) (fields : list str)
    : option student :=
  match fields with
  | [i; f; l; c; g] =>
      match int_of_str i, py_float g with
      | Some z, inr x => Some (Student z f l c x)
      | _, _ => None
      end
  | _ => None
  end.

(** A text without a line break, and a record whose three text fields are
    such texts. *)
Definition no_line_break (s : str) : Prop := ~ In Csv.CR s /\ ~ In Csv.LF s.

Definition one_line (r : student) : Prop :=
  no_line_break (first_name r) /\ no_line_break (last_name r)
  /\ no_line_break (course r).

End Spec.

Import Database Spec.

(** ** The record store *)

Lemma check_grade_spec g : check_grade g = true <-> in_range g.
Proof.
  unfold check_grade, in_range, of_Z. split.
  - intros H. apply andb_true_iff in H as [H0 H1].
    destruct g as [| [] | q]; simpl in *; try discriminate.
    exists q. split; [reflexivity|].
    split; apply Qle_bool_iff; assumption.
  - intros (q & -> & H0 & H1). simpl.
    apply andb_true_iff. split; apply Qle_bool_iff; assumption.
Qed.

Lemma check_grade_false g : check_grade g = false <-> ~ in_range g.
Proof.
  rewrite <- check_grade_spec. destruct (check_grade g); split; intros H;
    try reflexivity; try discriminate; try (intros H'; discriminate).
  exfalso. apply H. reflexivity.
Qed.

Lemma constraints_in_range g : in_range g -> constraints g = Ok g.
Proof.
  intros H. pose proof H as (q & -> & _). apply check_grade_spec in H.
  unfold constraints, bind_real. rewrite H. reflexivity.
Qed.

Lemma constraints_out_of_range g :
  ~ in_range g -> exists k, constraints g = Raise (IntegrityError k).
Proof.
  intros H. apply check_grade_false in H. unfold constraints.
  destruct g as [| b | q]; unfold bind_real.
  - eexists; reflexivity.
  - rewrite H. eexists; reflexivity.
  - rewrite H. eexists; reflexivity.
Qed.

Lemma max_rowid_ge l r : In r l -> id r <= max_rowid l.
Proof.
  induction l as [|a l IH]; simpl; [contradiction|].
  intros [-> | H]; [lia|]. specialize (IH H). lia.
Qed.

Lemma next_rowid_fresh db : ~ In (next_rowid db) (map id (rows db)).
Proof.
  intros H. apply in_map_iff in H as (r & E & H).
  apply max_rowid_ge in H. unfold next_rowid in E. lia.
Qed.

Lemma existsb_has_id sid l :
  existsb (has_id sid) l = true <-> exists r, In r l /\ id r = sid.
Proof.
  rewrite existsb_exists. unfold has_id.
  split; intros (r & H & E); exists r; split; auto; apply Z.eqb_eq; assumption.
Qed.

Lemma existsb_has_id_false sid l :
  existsb (has_id sid) l = false <-> ~ exists r, In r l /\ id r = sid.
Proof.
  rewrite <- existsb_has_id. destruct (existsb (has_id sid) l); split; intros H;
    try reflexivity; try discriminate; try (intros H'; discriminate).
  exfalso. apply H. reflexivity.
Qed.

Lemma filter_all {A} (f : A -> bool) l :
  (forall x, In x l -> f x = true) -> filter f l = l.
Proof.
  induction l as [|a l IH]; simpl; intros H; [reflexivity|].
  rewrite (H a (or_introl eq_refl)). f_equal. apply IH. intros x Hx. apply H. right. exact Hx.
Qed.

Lemma in_range_of_Z z : 0 <= z <= 100 -> in_range (of_Z z).
Proof.
  intros [H0 H1]. exists (inject_Z z). split; [reflexivity|].
  split; [change 0%Q with (inject_Z 0) | change 100%Q with (inject_Z 100)];
    rewrite <- Zle_Qle; assumption.
Qed.

Lemma not_in_range_of_Z z : z < 0 \/ 100 < z -> ~ in_range (of_Z z).
Proof.
  intros H (q & E & H0 & H1). injection E as <-.
  change 0%Q with (inject_Z 0) in H0. change 100%Q with (inject_Z 100) in H1.
  rewrite <- Zle_Qle in H0, H1. lia.
Qed.

Lemma add_student_in_range db fn ln c g :
  in_range g ->
  add_student db fn ln c g
  = Ok (Table (rows db ++ [Student (next_rowid db) fn ln c g]) (next_rowid db)).
Proof. intros H. unfold add_student. rewrite (constraints_in_range g H). reflexivity. Qed.

(** C2, counterexample. The store takes an empty first name: the schema
    asks for NOT NULL, and an empty text is not NULL. *)
Lemma add_student_empty_name_accepted :
  add_student initialize_db [] (lit "Lee") (lit "Math") (of_Z 50)
  = Ok (Table [Student 1 [] (lit "Lee") (lit "Math") (of_Z 50)] 1).
Proof. reflexivity. Qed.

(** C2, as amended. [Database.add_student] fails with an integrity error,
    and leaves the table as it was, exactly when the grade is outside
    [0, 100]; otherwise, whatever the three texts are, it appends one row
    that carries the given fields under an id no stored row has. *)
Theorem add_student_constraints db fn ln c g :
  (~ in_range g -> exists k, add_student db fn ln c g = Raise (IntegrityError k))
  /\ (in_range g ->
      add_student db fn ln c g
      = Ok (Table (rows db ++ [Student (next_rowid db) fn ln c g]) (next_rowid db))
      /\ ~ In (next_rowid db) (map id (rows db))).
Proof.
  split; intros H.
  - unfold add_student. destruct (constraints_out_of_range g H) as [k ->].
    exists k. reflexivity.
  - split; [apply add_student_in_range, H | apply next_rowid_fresh].
Qed.

Lemma add_student_constraints_witness :
  (exists k, add_student Sample.seed [] (lit "Lee") (lit "Math") (of_Z 101)
             = Raise (IntegrityError k))
  /\ add_student Sample.seed [] (lit "Lee") (lit "Math") (of_Z 50)
     = Ok (Table (rows Sample.seed ++ [Student 4 [] (lit "Lee") (lit "Math") (of_Z 50)]) 4).
Proof.
  split.
  - apply (proj1 (add_student_constraints Sample.seed [] (lit "Lee") (lit "Math") (of_Z 101))).
    apply not_in_range_of_Z. lia.
  - apply (proj2 (add_student_constraints Sample.seed [] (lit "Lee") (lit "Math") (of_Z 50))).
    apply in_range_of_Z. lia.
Defined.

(** C6, counterexample. Record 1 exists, and an update of it with grade 200
    replaces nothing: the CHECK constraint stops the statement. *)
Lemma update_student_out_of_range_refused :
  In Sample.anna (rows Sample.seed) /\ id Sample.anna = 1
  /\ update_student Sample.seed 1 (lit "Ann") (lit "Li") (lit "Art") (of_Z 200)
     = Raise (IntegrityError Check_grade).
Proof. split; [left; reflexivity | split; reflexivity]. Qed.

Lemma update_rows_Forall2 sid fn ln c g l :
  Forall2 (updated sid fn ln c g) l
    (map (fun r => if has_id sid r then set_fields fn ln c g r else r) l).
Proof.
  induction l as [|r l IH]; simpl; constructor; [|exact IH].
  unfold updated, has_id, set_fields. destruct (Z.eqb_spec (id r) sid) as [E|E]; split; intros H.
  - rewrite E. reflexivity.
  - contradiction.
  - contradiction.
  - reflexivity.
Qed.

(** C6, as amended. [Database.update_student] on an id that a stored record
    has: with a grade in [0, 100] the statement succeeds, each record with
    that id takes the four new fields and keeps its id, and every other
    record, the order of the rows and the id counter are as before; with a
    grade outside [0, 100] it fails with an integrity error and the table
    stays as it was. On an id that no stored record has it returns and the
    table is unchanged, whatever the grade. *)
Theorem update_student_frame db sid fn ln c g :
  ((exists r, In r (rows db) /\ id r = sid) -> in_range g ->
     exists d, update_student db sid fn ln c g = Ok d
       /\ Forall2 (updated sid fn ln c g) (rows db) (rows d)
       /\ seq d = seq db)
  /\ ((exists r, In r (rows db) /\ id r = sid) -> ~ in_range g ->
     exists k, update_student db sid fn ln c g = Raise (IntegrityError k))
  /\ ((~ exists r, In r (rows db) /\ id r = sid) ->
     update_student db sid fn ln c g = Ok db).
Proof.
  unfold update_student. repeat split.
  - intros Hex Hg. apply existsb_has_id in Hex. rewrite Hex.
    rewrite (constraints_in_range g Hg). eexists. split; [reflexivity|].
    split; [apply update_rows_Forall2 | reflexivity].
  - intros Hex Hg. apply existsb_has_id in Hex. rewrite Hex.
    destruct (constraints_out_of_range g Hg) as [k ->]. exists k. reflexivity.
  - intros Hno. apply existsb_has_id_false in Hno. rewrite Hno. reflexivity.
Qed.

Lemma update_student_frame_witness :
  (exists d, update_student Sample.seed 2 (lit "Iva") (lit "Ng") (lit "Chemistry") (of_Z 77) = Ok d
     /\ Forall2 (updated 2 (lit "Iva") (lit "Ng") (lit "Chemistry") (of_Z 77))
                (rows Sample.seed) (rows d)
     /\ seq d = seq Sample.seed)
  /\ (exists k, update_student Sample.seed 2 (lit "Iva") (lit "Ng") (lit "Chemistry") (of_Z (-1))
                = Raise (IntegrityError k))
  /\ update_student Sample.seed 9 (lit "Iva") (lit "Ng") (lit "Chemistry") (of_Z (-1))
     = Ok Sample.seed.
Proof.
  split; [|split].
  - apply (proj1 (update_student_frame Sample.seed 2 (lit "Iva") (lit "Ng") (lit "Chemistry") (of_Z 77))).
    + exists Sample.ivan. split; [right; left; reflexivity | reflexivity].
    + apply in_range_of_Z. lia.
  - apply (proj1 (proj2 (update_student_frame Sample.seed 2 (lit "Iva") (lit "Ng") (lit "Chemistry") (of_Z (-1))))).
    + exists Sample.ivan. split; [right; left; reflexivity | reflexivity].
    + apply not_in_range_of_Z. lia.
  - apply (proj2 (proj2 (update_student_frame Sample.seed 9 (lit "Iva") (lit "Ng") (lit "Chemistry") (of_Z (-1))))).
    intros (r & [<- | [<- | [<- | []]]] & E); discriminate E.
Defined.

Lemma delete_keeps_others sid l :
  (forall r, In r l -> id r <> sid) ->
  filter (fun r => negb (has_id sid r)) l = l.
Proof.
  intros H. apply filter_all. intros r Hr. unfold has_id.
  apply negb_true_iff, Z.eqb_neq, H, Hr.
Qed.

(** C7. [Database.delete_student]: afterwards no record of [list_all] has
    the id; a record with another id is listed afterwards exactly when it
    was listed before; in a table with distinct ids the rows are those of
    before, in the same order, without the deleted one; and when no record
    has the id the table (rows and id counter) is unchanged. *)
Theorem delete_student_removes db sid :
  (forall r, In r (get_all_students (delete_student db sid)) -> id r <> sid)
  /\ (forall r, id r <> sid ->
        (In r (get_all_students (delete_student db sid)) <-> In r (get_all_students db)))
  /\ (unique_ids db -> forall r, In r (rows db) -> id r = sid ->
        exists pre post, rows db = pre ++ r :: post
                         /\ rows (delete_student db sid) = pre ++ post)
  /\ ((~ exists r, In r (rows db) /\ id r = sid) -> delete_student db sid = db).
Proof.
  unfold get_all_students, delete_student. simpl. split; [|split; [|split]].
  - intros r H. apply filter_In in H as [_ H]. unfold has_id in H.
    apply negb_true_iff, Z.eqb_neq in H. exact H.
  - intros r Hne. rewrite filter_In. unfold has_id. split.
    + intros [H _]. exact H.
    + intros H. split; [exact H|]. apply negb_true_iff, Z.eqb_neq. exact Hne.
  - intros Hu r Hr E. apply in_split in Hr as (pre & post & Hrows).
    exists pre, post. split; [exact Hrows|].
    unfold unique_ids in Hu. rewrite Hrows in Hu |- *.
    rewrite map_app in Hu. simpl in Hu. apply NoDup_remove_2 in Hu.
    rewrite filter_app. simpl. unfold has_id at 2. rewrite E, Z.eqb_refl. simpl.
    rewrite !delete_keeps_others; [reflexivity | |];
      intros x Hx Ex; apply Hu, in_or_app; rewrite E, <- Ex;
      [right | left]; apply in_map, Hx.
  - intros Hno. destruct db as [l s]. simpl in *. f_equal.
    apply delete_keeps_others. intros r Hr E. apply Hno. exists r. split; assumption.
Qed.

Lemma delete_student_removes_witness :
  unique_ids Sample.seed /\ In Sample.ivan (rows Sample.seed) /\ id Sample.ivan = 2
  /\ exists pre post, rows Sample.seed = pre ++ Sample.ivan :: post
                      /\ rows (delete_student Sample.seed 2) = pre ++ post.
Proof.
  assert (Hu : unique_ids Sample.seed).
  { unfold unique_ids. simpl. repeat constructor; simpl; intuition discriminate. }
  assert (Hi : In Sample.ivan (rows Sample.seed)) by (right; left; reflexivity).
  split; [exact Hu | split; [exact Hi | split; [reflexivity|]]].
  exact (proj1 (proj2 (proj2 (delete_student_removes Sample.seed 2))) Hu Sample.ivan Hi eq_refl).
Defined.

(** ** The form handlers *)

Import App.

Lemma is_empty_true s : is_empty s = true <-> s = [].
Proof. destruct s; simpl; split; intros H; try reflexivity; discriminate. Qed.

Lemma is_empty_false s : is_empty s = false <-> s <> [].
Proof.
  destruct s; simpl; split; intros H; try reflexivity; try discriminate.
  contradiction H; reflexivity.
Qed.

Lemma invalid_input_true fn ln c x :
  invalid_input fn ln c x = true <-> (fn = [] \/ ln = [] \/ c = [] \/ ~ in_range x).
Proof.
  unfold invalid_input. fold (check_grade x).
  rewrite !orb_true_iff, !is_empty_true, negb_true_iff, check_grade_false. tauto.
Qed.

Lemma invalid_input_false fn ln c x :
  invalid_input fn ln c x = false <-> (fn <> [] /\ ln <> [] /\ c <> [] /\ in_range x).
Proof.
  unfold invalid_input. fold (check_grade x).
  rewrite !orb_false_iff, !is_empty_false, negb_false_iff, check_grade_spec. tauto.
Qed.

(** C1. With no row selected, the Delete button shows the warning and leaves
    the whole state as it was, but the Update button shows nothing: the
    IndexError of [self.tree.selection()[0]] is not a ValueError, so it
    leaves [update_student] uncaught, with the state (the stored table and
    the list of dialogs) untouched. *)
Theorem no_selection_update_is_silent py_float g :
  selection g = [] ->
  update_student py_float g = (g, Uncaught IndexError)
  /\ delete_student g
     = (show (showwarning (lit "Warning") (lit "No student selected")) g, Returned).
Proof.
  intros H. unfold update_student, delete_student, first_selected. rewrite H.
  split; reflexivity.
Qed.

Lemma no_selection_update_is_silent_witness :
  selection (startup Sample.seed) = []
  /\ update_student Sample.py_float (startup Sample.seed)
     = (startup Sample.seed, Uncaught IndexError)
  /\ dialogs (fst (update_student Sample.py_float (startup Sample.seed))) = [].
Proof.
  split; [reflexivity|].
  split.
  - apply (no_selection_update_is_silent Sample.py_float (startup Sample.seed)). reflexivity.
  - reflexivity.
Defined.

(** C4. An add attempt in which the grade is a number outside [0, 100]
    (such as -1 or 101), or in which the first name, the last name or the
    course is empty, ends with an error dialog and nothing else: the
    handler returns, and the state, hence the stored table and what
    [get_all_students] returns, is the one before. *)
Theorem add_student_rejects py_float g :
  (first_name_entry g = [] \/ last_name_entry g = [] \/ course_entry g = []
   \/ exists x, py_float (grade_entry g) = inr x /\ ~ in_range x) ->
  (exists msg, add_student py_float g
               = (show (showerror (lit "Error") (lit "Invalid data: " ++ msg)) g, Returned))
  /\ get_all_students (db (fst (add_student py_float g))) = get_all_students (db g).
Proof.
  intros H.
  assert (E : exists msg, add_student py_float g
               = (show (showerror (lit "Error") (lit "Invalid data: " ++ msg)) g, Returned)).
  { unfold add_student, float_of.
    destruct (py_float (grade_entry g)) as [msg | x] eqn:Ef; simpl.
    - exists msg. reflexivity.
    - assert (Hi : invalid_input (first_name_entry g) (last_name_entry g)
                     (course_entry g) x = true).
      { apply invalid_input_true.
        destruct H as [H | [H | [H | (y & Ey & H)]]]; auto.
        injection Ey as <-. auto. }
      rewrite Hi. eexists. reflexivity. }
  split; [exact E|]. destruct E as [msg ->]. reflexivity.
Qed.

Lemma add_student_rejects_witness :
  (exists msg, add_student Sample.py_float (Sample.form "Zoe" "Hill" "Law" "-1" Sample.seed)
     = (show (showerror (lit "Error") (lit "Invalid data: " ++ msg))
             (Sample.form "Zoe" "Hill" "Law" "-1" Sample.seed), Returned))
  /\ get_all_students (db (fst (add_student Sample.py_float (Sample.form "Zoe" "Hill" "Law" "101" Sample.seed))))
     = get_all_students Sample.seed
  /\ get_all_students (db (fst (add_student Sample.py_float (Sample.form "Zoe" "" "Law" "50" Sample.seed))))
     = get_all_students Sample.seed.
Proof.
  split; [|split].
  - apply (proj1 (add_student_rejects Sample.py_float (Sample.form "Zoe" "Hill" "Law" "-1" Sample.seed)
              (or_intror (or_intror (or_intror
                 (ex_intro _ (of_Z (-1)) (conj eq_refl (not_in_range_of_Z (-1) (or_introl eq_refl))))))))).
  - apply (proj2 (add_student_rejects Sample.py_float (Sample.form "Zoe" "Hill" "Law" "101" Sample.seed)
              (or_intror (or_intror (or_intror
                 (ex_intro _ (of_Z 101) (conj eq_refl (not_in_range_of_Z 101 (or_intror eq_refl))))))))).
  - apply (proj2 (add_student_rejects Sample.py_float (Sample.form "Zoe" "" "Law" "50" Sample.seed)
              (or_intror (or_introl eq_refl)))).
Defined.

(** C5. An add with a grade in [0, 100] and the three texts non-empty
    succeeds: the handler returns after the success dialog, the store holds
    one more row, made of the four fields under a fresh id, after the rows
    it held; that record is in the result of [get_all_students], and the
    displayed list is that result. *)
Theorem add_student_succeeds py_float g x :
  first_name_entry g <> [] -> last_name_entry g <> [] -> course_entry g <> [] ->
  py_float (grade_entry g) = inr x -> in_range x ->
  let r := Student (next_rowid (db g)) (first_name_entry g) (last_name_entry g)
                   (course_entry g) x in
  exists g', add_student py_float g = (g', Returned)
    /\ get_all_students (db g') = get_all_students (db g) ++ [r]
    /\ In r (get_all_students (db g'))
    /\ ~ In (id r) (map id (get_all_students (db g)))
    /\ dialogs g' = dialogs g ++ [showinfo (lit "Success") (lit "Student added successfully")]
    /\ map values (tree g') = get_all_students (db g').
Proof.
  intros Hf Hl Hc Ef Hx r.
  unfold add_student, float_of. rewrite Ef. simpl.
  rewrite (proj2 (invalid_input_false _ _ _ x) (conj Hf (conj Hl (conj Hc Hx)))).
  rewrite (add_student_in_range (db g) _ _ _ x Hx). simpl.
  eexists. split; [reflexivity|]. simpl.
  repeat split.
  - apply in_or_app. right. left. reflexivity.
  - apply next_rowid_fresh.
  - unfold insert_all. rewrite map_map. simpl. apply map_id.
Qed.

Lemma add_student_succeeds_witness :
  exists g', add_student Sample.py_float (Sample.form "Zoe" "Hill" "Law" "100" Sample.seed) = (g', Returned)
    /\ get_all_students (db g')
       = get_all_students Sample.seed ++ [Student 4 (lit "Zoe") (lit "Hill") (lit "Law") (of_Z 100)]
    /\ In (Student 4 (lit "Zoe") (lit "Hill") (lit "Law") (of_Z 100)) (get_all_students (db g'))
    /\ ~ In 4 (map id (get_all_students Sample.seed))
    /\ dialogs g' = [showinfo (lit "Success") (lit "Student added successfully")]
    /\ map values (tree g') = get_all_students (db g').
Proof.
  apply (add_student_succeeds Sample.py_float (Sample.form "Zoe" "Hill" "Law" "100" Sample.seed) (of_Z 100)).
  - discriminate.
  - discriminate.
  - discriminate.
  - reflexivity.
  - apply in_range_of_Z. lia.
Defined.

(** ** The invariant of the stored table *)

Lemma update_keeps_ids sid fn ln c g l :
  map id (map (fun r => if has_id sid r then set_fields fn ln c g r else r) l) = map id l.
Proof.
  rewrite map_map. apply map_ext. intros r. destruct (has_id sid r); reflexivity.
Qed.

Lemma NoDup_map_filter {A B} (f : A -> B) (p : A -> bool) l :
  NoDup (map f l) -> NoDup (map f (filter p l)).
Proof.
  induction l as [|a l IH]; simpl; intros H; [constructor|].
  inversion H as [|? ? Hn Hd]; subst. destruct (p a); simpl; [|auto].
  constructor; [|auto]. intros Hin. apply Hn.
  apply in_map_iff in Hin as (y & E & Hy). apply filter_In in Hy as [Hy _].
  rewrite <- E. apply in_map, Hy.
Qed.

Lemma NoDup_snoc {A} (l : list A) x : NoDup l -> ~ In x l -> NoDup (l ++ [x]).
Proof.
  intros Hl Hx. apply NoDup_rev in Hl. rewrite <- (rev_involutive (l ++ [x])).
  apply NoDup_rev. rewrite rev_app_distr. simpl. constructor; [|exact Hl].
  rewrite <- in_rev. exact Hx.
Qed.

Lemma store_inv_initialize_db : store_inv initialize_db.
Proof. split; [constructor | constructor]. Qed.

Lemma store_inv_add db fn ln c g d :
  store_inv db -> fn <> [] -> ln <> [] -> c <> [] -> in_range g ->
  Database.add_student db fn ln c g = Ok d -> store_inv d.
Proof.
  intros [Hv Hu] Hf Hl Hc Hg E.
  rewrite (add_student_in_range db fn ln c g Hg) in E. injection E as <-.
  pose proof (next_rowid_fresh db) as Hfresh.
  split; simpl.
  - apply Forall_app. split; [exact Hv|]. constructor; [|constructor].
    repeat split; assumption.
  - unfold unique_ids in *. simpl. rewrite map_app. simpl.
    apply NoDup_snoc; assumption.
Qed.

Lemma store_inv_update db sid fn ln c g d :
  store_inv db -> fn <> [] -> ln <> [] -> c <> [] -> in_range g ->
  Database.update_student db sid fn ln c g = Ok d -> store_inv d.
Proof.
  intros [Hv Hu] Hf Hl Hc Hg E. unfold Database.update_student in E.
  destruct (existsb (has_id sid) (rows db)).
  - rewrite (constraints_in_range g Hg) in E. simpl in E. injection E as <-.
    split; simpl.
    + apply Forall_map. eapply Forall_impl; [|exact Hv]. intros r Hr. simpl.
      destruct (has_id sid r); [|exact Hr]. repeat split; assumption.
    + unfold unique_ids. simpl. rewrite update_keeps_ids. exact Hu.
  - injection E as <-. split; assumption.
Qed.

Lemma store_inv_delete db sid : store_inv db -> store_inv (Database.delete_student db sid).
Proof.
  intros [Hv Hu]. split; simpl.
  - apply Forall_forall. intros r Hr. apply filter_In in Hr as [Hr _].
    rewrite Forall_forall in Hv. apply Hv, Hr.
  - unfold unique_ids. simpl. apply NoDup_map_filter, Hu.
Qed.

Lemma constraints_Ok g v : constraints g = Ok v -> v = g /\ in_range g.
Proof.
  unfold constraints. destruct g as [| b | q]; unfold bind_real; try discriminate.
  - destruct (check_grade (Inf b)) eqn:E; [|discriminate].
    intros H. injection H as <-. split; [reflexivity | apply check_grade_spec, E].
  - destruct (check_grade (Fin q)) eqn:E; [|discriminate].
    intros H. injection H as <-. split; [reflexivity | apply check_grade_spec, E].
Qed.

(** Whatever the calls and their arguments, the schema keeps every stored
    grade in [0, 100] and the ids distinct; the texts it does not check. *)
Lemma schema_inv_after_call d k : schema_inv d -> schema_inv (after_call d k).
Proof.
  intros [Hg Hu]. destruct k as [fn ln c g | sid fn ln c g | sid]; simpl.
  - unfold Database.add_student. destruct (constraints g) as [v | e] eqn:E; simpl;
      [|split; assumption].
    apply constraints_Ok in E as [-> Hin]. split; simpl.
    + apply Forall_app. split; [exact Hg | repeat constructor; exact Hin].
    + unfold unique_ids. simpl. rewrite map_app. simpl.
      apply NoDup_snoc; [exact Hu | apply next_rowid_fresh].
  - unfold Database.update_student. destruct (existsb (has_id sid) (rows d));
      [|split; assumption].
    destruct (constraints g) as [v | e] eqn:E; simpl; [|split; assumption].
    apply constraints_Ok in E as [-> Hin]. split; simpl.
    + apply Forall_map. eapply Forall_impl; [|exact Hg]. intros r Hr. simpl.
      destruct (has_id sid r); [exact Hin | exact Hr].
    + unfold unique_ids. simpl. rewrite update_keeps_ids. exact Hu.
  - split; simpl.
    + apply Forall_forall. intros r Hr. apply filter_In in Hr as [Hr _].
      rewrite Forall_forall in Hg. apply Hg, Hr.
    + unfold unique_ids. simpl. apply NoDup_map_filter, Hu.
Qed.

Lemma schema_inv_calls ks : forall d,
  schema_inv d -> schema_inv (fold_left after_call ks d).
Proof.
  induction ks as [|k ks IH]; intros d H; simpl; [exact H|].
  apply IH, schema_inv_after_call, H.
Qed.

Lemma db_search_handler g : db (fst (App.search_students g)) = db g.
Proof.
  unfold App.search_students. destruct (Database.search_students _ _); reflexivity.
Qed.

Section Reachable.

Variable py_float : str -> str + pyfloat.
Variable float_str : pyfloat -> str.

Lemma db_select_student g : db (select_student float_str g) = db g.
Proof. unfold select_student. destruct (selection g); reflexivity. Qed.

Lemma store_inv_add_handler g :
  store_inv (db g) -> store_inv (db (fst (App.add_student py_float g))).
Proof.
  intros H. unfold App.add_student, float_of.
  destruct (py_float (grade_entry g)) as [msg | x]; simpl; [exact H|].
  destruct (invalid_input _ _ _ x) eqn:Ei; simpl; [exact H|].
  apply invalid_input_false in Ei as (Hf & Hl & Hc & Hx).
  destruct (Database.add_student (db g) _ _ _ x) as [d | e] eqn:Ea; simpl.
  - exact (store_inv_add _ _ _ _ _ _ H Hf Hl Hc Hx Ea).
  - destruct e; exact H.
Qed.

Lemma store_inv_update_handler g :
  store_inv (db g) -> store_inv (db (fst (App.update_student py_float g))).
Proof.
  intros H. unfold App.update_student, float_of, first_selected.
  destruct (selection g) as [|it sel]; simpl; [exact H|].
  destruct (py_float (grade_entry g)) as [msg | x]; simpl; [exact H|].
  destruct (invalid_input _ _ _ x) eqn:Ei; simpl; [exact H|].
  apply invalid_input_false in Ei as (Hf & Hl & Hc & Hx).
  destruct (Database.update_student (db g) _ _ _ _ x) as [d | e] eqn:Ea; simpl.
  - exact (store_inv_update _ _ _ _ _ _ _ H Hf Hl Hc Hx Ea).
  - destruct e; exact H.
Qed.

Lemma store_inv_delete_handler g :
  store_inv (db g) -> store_inv (db (fst (App.delete_student g))).
Proof.
  intros H. unfold App.delete_student, first_selected.
  destruct (selection g) as [|it sel]; simpl; [exact H|].
  apply store_inv_delete, H.
Qed.

Lemma store_inv_step g e :
  store_inv (db g) -> store_inv (db (step py_float float_str g e)).
Proof.
  intros H. destruct e; simpl.
  - destruct f; exact H.
  - destruct (row <? List.length (tree g))%nat; rewrite db_select_student; exact H.
  - rewrite db_select_student. exact H.
  - apply store_inv_add_handler, H.
  - apply store_inv_update_handler, H.
  - apply store_inv_delete_handler, H.
  - rewrite db_search_handler. exact H.
  - unfold App.export_to_csv. destruct (is_empty file_path); exact H.
  - exact H.
Qed.

Lemma store_inv_run es : forall g,
  store_inv (db g) -> store_inv (db (run py_float float_str g es)).
Proof.
  induction es as [|e es IH]; intros g H; simpl; [exact H|].
  apply IH, store_inv_step, H.
Qed.

Lemma update_handler_keeps_ids g :
  map id (rows (db (fst (App.update_student py_float g)))) = map id (rows (db g)).
Proof.
  unfold App.update_student, float_of, first_selected.
  destruct (selection g) as [|it sel]; simpl; [reflexivity|].
  destruct (py_float (grade_entry g)) as [msg | x]; simpl; [reflexivity|].
  destruct (invalid_input _ _ _ x); simpl; [reflexivity|].
  unfold Database.update_student.
  destruct (existsb _ (rows (db g))); simpl; [|reflexivity].
  destruct (constraints x) as [v | e]; simpl.
  - apply update_keeps_ids.
  - destruct e; reflexivity.
Qed.

End Reachable.

(** C9. In every state that user actions (typing, selecting, Add, Update,
    Delete, Search, Export, relaunching) lead to from the first launch,
    every stored record has a grade in [0, 100] and a non-empty first name,
    last name and course, and no two stored records have the same id; and
    the Update button leaves the id of every record as it was. *)
Theorem reachable_store_invariant py_float float_str g :
  reachable py_float float_str g ->
  Forall valid (rows (db g))
  /\ unique_ids (db g)
  /\ map id (rows (db (step py_float float_str g Press_update))) = map id (rows (db g)).
Proof.
  intros [es ->].
  destruct (store_inv_run py_float float_str es (startup initialize_db)
              store_inv_initialize_db) as [Hv Hu].
  split; [exact Hv | split; [exact Hu|]].
  apply update_handler_keeps_ids.
Qed.

Lemma reachable_store_invariant_witness :
  let g := run Sample.py_float Sample.float_str (startup initialize_db)
             [Type_in FirstName (lit "Anna"); Type_in LastName (lit "Lee");
              Type_in Course (lit "Math"); Type_in Grade (lit "90"); Press_add;
              Type_in Grade (lit "101"); Press_add;
              Click 0; Type_in Course (lit "Art"); Type_in Grade (lit "75"); Press_update] in
  rows (db g) = [Student 1 (lit "Anna") (lit "Lee") (lit "Art") (of_Z 75)]
  /\ Forall valid (rows (db g)) /\ unique_ids (db g)
  /\ map id (rows (db (step Sample.py_float Sample.float_str g Press_update)))
     = map id (rows (db g)).
Proof.
  intros g. split; [reflexivity|].
  apply (reachable_store_invariant Sample.py_float Sample.float_str g).
  eexists. reflexivity.
Defined.

(** ** Search: what LIKE matches *)

Lemma like_percent pat s :
  Like.like (Like.percent :: pat) s
  = Like.like pat s
    || match s with [] => false | _ :: s' => Like.like (Like.percent :: pat) s' end.
Proof. destruct s; reflexivity. Qed.

Lemma like_char p pat s :
  Ascii.eqb p Like.percent = false ->
  Like.like (p :: pat) s
  = match s with
    | [] => false
    | c :: s' => (Ascii.eqb p Like.underscore || Ascii.eqb (Like.lower p) (Like.lower c))
                 && Like.like pat s'
    end.
Proof. intros H. simpl. rewrite H. reflexivity. Qed.

Lemma like_percent_iff pat s :
  Like.like (Like.percent :: pat) s = true
  <-> exists pre post, s = pre ++ post /\ Like.like pat post = true.
Proof.
  induction s as [|c s IH]; rewrite like_percent, orb_true_iff.
  - split.
    + intros [H | H]; [|discriminate]. exists [], []. split; [reflexivity | exact H].
    + intros (pre & post & E & H). symmetry in E. apply app_eq_nil in E as [-> ->].
      left. exact H.
  - rewrite IH. split.
    + intros [H | (pre & post & -> & H)].
      * exists [], (c :: s). split; [reflexivity | exact H].
      * exists (c :: pre), post. split; [reflexivity | exact H].
    + intros ([|c' pre] & post & E & H); simpl in E.
      * left. rewrite E. exact H.
      * injection E as <- ->. right. exists pre, post. split; [reflexivity | exact H].
Qed.

Lemma like_percent_only s : Like.like [Like.percent] s = true.
Proof.
  apply like_percent_iff. exists s, []. split; [symmetry; apply app_nil_r | reflexivity].
Qed.

Lemma literal_cons p s :
  literal (p :: s)
  <-> (Ascii.eqb p Like.percent = false /\ Ascii.eqb p Like.underscore = false) /\ literal s.
Proof.
  unfold literal. simpl. rewrite !Ascii.eqb_neq. intuition congruence.
Qed.

(** A pattern without wildcards, followed by [%], matches the texts that
    begin with it up to case. *)
Lemma like_literal_prefix s : forall t,
  literal s ->
  (Like.like (s ++ [Like.percent]) t = true
   <-> exists post, map Like.lower t = map Like.lower s ++ post).
Proof.
  induction s as [|p s IH]; intros t Hs; cbn [List.app].
  - rewrite like_percent_only. split; [|reflexivity].
    intros _. exists (map Like.lower t). reflexivity.
  - apply literal_cons in Hs as [[Hp Hu] Hs]. rewrite (like_char _ _ _ Hp), Hu.
    destruct t as [|c t]; simpl.
    + split; [discriminate|]. intros [post E]. discriminate E.
    + rewrite andb_true_iff, Ascii.eqb_eq, (IH t Hs). split.
      * intros [E [post H]]. exists post. rewrite E, H. reflexivity.
      * intros [post H]. injection H as E H. split; [symmetry; exact E|].
        exists post. exact H.
Qed.

(** The pattern that [search_students] builds from a text without
    wildcards matches the texts that contain it up to case. *)
Lemma like_contains s t :
  literal s ->
  (Like.like (Like.percent :: s ++ [Like.percent]) t = true <-> substring_nocase s t).
Proof.
  intros Hs. rewrite like_percent_iff. unfold substring_nocase, substring. split.
  - intros (pre & post & -> & H). apply (like_literal_prefix s post Hs) in H as [post' H].
    exists (map Like.lower pre), post'. rewrite map_app, H. reflexivity.
  - intros (pre & post & H). apply map_eq_app in H as (pre' & rest & -> & _ & H).
    exists pre', rest. split; [reflexivity|].
    apply (like_literal_prefix s rest Hs). exists post. exact H.
Qed.

Lemma substring_In s t c : substring s t -> In c s -> In c t.
Proof.
  intros (pre & post & ->) H. apply in_or_app. right. apply in_or_app. left. exact H.
Qed.

Lemma not_substring_char c s t : In c s -> ~ In c t -> ~ substring s t.
Proof. intros Hs Ht H. apply Ht. exact (substring_In s t c H Hs). Qed.

Lemma select_where_filter cond f l :
  (forall r, In r l -> cond r = Ok (f r)) -> select_where cond l = Ok (filter f l).
Proof.
  induction l as [|r l IH]; intros H; simpl; [reflexivity|].
  rewrite (H r (or_introl eq_refl)). simpl.
  rewrite IH; [reflexivity|]. intros r' Hr'. apply H. right. exact Hr'.
Qed.

Lemma c_string_no_NUL s : ~ In Like.NUL s -> Like.c_string s = s.
Proof.
  induction s as [|c s IH]; intros H; simpl; [reflexivity|].
  destruct (Ascii.eqb_spec c Like.NUL) as [E | E].
  - exfalso. apply H. left. rewrite E. reflexivity.
  - rewrite IH; [reflexivity|]. intros Hin. apply H. right. exact Hin.
Qed.

Lemma c_string_search_pattern s :
  ~ In Like.NUL s ->
  Like.c_string (Like.percent :: s ++ [Like.percent]) = Like.percent :: s ++ [Like.percent].
Proof.
  intros H. apply c_string_no_NUL. intros [E | Hin]; [discriminate E|].
  apply in_app_or in Hin as [Hin | [E | []]]; [exact (H Hin) | discriminate E].
Qed.

Lemma search_pattern_length s :
  Z.of_nat (List.length (Like.percent :: s ++ [Like.percent])) = Z.of_nat (List.length s) + 2.
Proof. simpl List.length. rewrite length_app. simpl. lia. Qed.

Lemma like_function_short pat t :
  Z.of_nat (List.length pat) <= Like.max_pattern_length ->
  Like.like_function pat t = Ok (Like.like (Like.c_string pat) (Like.c_string t)).
Proof.
  intros H. unfold Like.like_function.
  destruct (Z.ltb_spec Like.max_pattern_length (Z.of_nat (List.length pat))); [lia|].
  reflexivity.
Qed.

Lemma like_function_long pat t :
  Like.max_pattern_length < Z.of_nat (List.length pat) ->
  Like.like_function pat t
  = Raise (OperationalError (lit "LIKE or GLOB pattern too complex")).
Proof.
  intros H. unfold Like.like_function.
  destruct (Z.ltb_spec Like.max_pattern_length (Z.of_nat (List.length pat))); [|lia].
  reflexivity.
Qed.

(** With a text that fits, the search is a filter of the rows. *)
Lemma search_students_short db s :
  Z.of_nat (List.length s) + 2 <= Like.max_pattern_length ->
  Database.search_students db s
  = Ok (filter (fun r =>
                  Like.like (Like.c_string (Like.percent :: s ++ [Like.percent]))
                            (Like.c_string (first_name r))
                  || Like.like (Like.c_string (Like.percent :: s ++ [Like.percent]))
                               (Like.c_string (last_name r)))
               (rows db)).
Proof.
  intros H. unfold Database.search_students. apply select_where_filter.
  intros r _. unfold where_like.
  rewrite !like_function_short by (rewrite search_pattern_length; exact H). simpl.
  match goal with |- context [if ?b then _ else _] => destruct b end; reflexivity.
Qed.

(** With a text that does not fit, the search fails on the first row. *)
Lemma search_students_long db s :
  Like.max_pattern_length < Z.of_nat (List.length s) + 2 -> rows db <> [] ->
  Database.search_students db s
  = Raise (OperationalError (lit "LIKE or GLOB pattern too complex")).
Proof.
  intros H Hrows. unfold Database.search_students.
  destruct (rows db) as [|r l]; [contradiction Hrows; reflexivity|].
  simpl. unfold where_like.
  rewrite like_function_long by (rewrite search_pattern_length; exact H). reflexivity.
Qed.

Lemma search_students_Ok_filter db s found :
  Database.search_students db s = Ok found ->
  exists keep, found = filter keep (rows db).
Proof.
  intros H.
  destruct (Z.le_gt_cases (Z.of_nat (List.length s) + 2) Like.max_pattern_length) as [Hs | Hl].
  - rewrite (search_students_short db s Hs) in H. injection H as <-. eexists. reflexivity.
  - destruct (rows db) as [|r l] eqn:E.
    + unfold Database.search_students in H. rewrite E in H. injection H as <-.
      exists (fun _ => true). reflexivity.
    + rewrite (search_students_long db s Hl) in H; [discriminate H|].
      rewrite E. discriminate.
Qed.

Lemma long_text_length : Z.of_nat (List.length Sample.long_text) = 49999.
Proof. unfold Sample.long_text. rewrite repeat_length, N_nat_Z. reflexivity. Qed.

(** C3, counterexample. The search is not a substring test. The text [_]
    finds Bob Smith, whose names hold no underscore, whether letters are
    compared with or without case. A name is read up to its first NUL: the
    record named [a], NUL, [b] is not found by [b], and the text made of a
    NUL finds every record. A text of 49999 characters, on a table that is
    not empty, returns nothing at all: the statement fails. *)
Lemma search_is_not_a_substring_test :
  (Database.search_students Sample.seed (lit "_") = Ok [Sample.anna; Sample.ivan; Sample.bob]
   /\ ~ substring (lit "_") (first_name Sample.bob)
   /\ ~ substring (lit "_") (last_name Sample.bob)
   /\ ~ substring_nocase (lit "_") (first_name Sample.bob)
   /\ ~ substring_nocase (lit "_") (last_name Sample.bob))
  /\ (Database.search_students Sample.nul_in_name (lit "b") = Ok []
      /\ substring (lit "b") (lit "a" ++ [Like.NUL] ++ lit "b")
      /\ Database.search_students Sample.seed [Like.NUL]
         = Ok [Sample.anna; Sample.ivan; Sample.bob]
      /\ ~ substring [Like.NUL] (first_name Sample.bob)
      /\ ~ substring [Like.NUL] (last_name Sample.bob))
  /\ Database.search_students Sample.seed Sample.long_text
     = Raise (OperationalError (lit "LIKE or GLOB pattern too complex")).
Proof.
  split; [|split].
  - split; [reflexivity|].
    repeat split; unfold substring_nocase;
      apply (not_substring_char "_"%char); try (left; reflexivity);
      simpl; intuition discriminate.
  - split; [reflexivity|].
    split; [exists (lit "a" ++ [Like.NUL]), []; reflexivity|].
    split; [reflexivity|].
    split; apply (not_substring_char Like.NUL); try (left; reflexivity);
      simpl; intuition discriminate.
  - apply search_students_long; [rewrite long_text_length; reflexivity | discriminate].
Qed.

(** C3, as amended. For a search text of at most 49998 characters that
    holds no [%], no [_] and no NUL, the search returns, in the order of
    the table, exactly the stored records whose first name or last name,
    read up to its first NUL if it has one, contains the text up to the
    case of ASCII letters. With Anna Lee, Ivan Ng and Bob Smith stored, the
    search for [An] returns Anna Lee and Ivan Ng, and not Bob Smith. *)
Theorem search_students_contains :
  (forall db s, literal s -> ~ In Like.NUL s ->
     Z.of_nat (List.length s) <= Like.max_pattern_length - 2 ->
     exists found,
       Database.search_students db s = Ok found
       /\ (forall r, In r found
                     <-> In r (get_all_students db)
                         /\ (substring_nocase s (Like.c_string (first_name r))
                             \/ substring_nocase s (Like.c_string (last_name r))))
       /\ exists keep, found = filter keep (get_all_students db))
  /\ Database.search_students Sample.seed (lit "An") = Ok [Sample.anna; Sample.ivan].
Proof.
  split; [|reflexivity].
  intros db s Hs Hn Hlen.
  rewrite (search_students_short db s) by lia.
  rewrite (c_string_search_pattern s Hn).
  eexists. split; [reflexivity|]. split.
  - intros r. unfold get_all_students.
    rewrite filter_In, orb_true_iff, !(like_contains s _ Hs). reflexivity.
  - eexists. reflexivity.
Qed.

Lemma literal_An : literal (lit "An").
Proof. split; simpl; intuition discriminate. Qed.

Lemma search_students_contains_witness :
  literal (lit "An") /\ ~ In Like.NUL (lit "An")
  /\ Z.of_nat (List.length (lit "An")) <= Like.max_pattern_length - 2
  /\ exists found,
       Database.search_students Sample.seed (lit "An") = Ok found
       /\ (forall r, In r found
                     <-> In r (get_all_students Sample.seed)
                         /\ (substring_nocase (lit "An") (Like.c_string (first_name r))
                             \/ substring_nocase (lit "An") (Like.c_string (last_name r))))
       /\ exists keep, found = filter keep (get_all_students Sample.seed).
Proof.
  assert (Hn : ~ In Like.NUL (lit "An")) by (simpl; intuition discriminate).
  assert (Hl : Z.of_nat (List.length (lit "An")) <= Like.max_pattern_length - 2)
    by (vm_compute; discriminate).
  split; [exact literal_An | split; [exact Hn | split; [exact Hl|]]].
  exact (proj1 search_students_contains Sample.seed (lit "An") literal_An Hn Hl).
Defined.

(** C10. The search text is a fragment of a LIKE pattern: the search for
    [%], on a table in which no name holds [%] or [_], returns a record
    (in fact every record) although neither of its names contains [%]. *)
Theorem search_text_is_a_pattern :
  exists db s r found,
    In Like.percent s
    /\ Forall (fun r' => literal (first_name r') /\ literal (last_name r')) (rows db)
    /\ Database.search_students db s = Ok found
    /\ In r found
    /\ ~ substring s (first_name r) /\ ~ substring s (last_name r)
    /\ found = get_all_students db.
Proof.
  exists Sample.seed, (lit "%"), Sample.bob, (get_all_students Sample.seed).
  split; [left; reflexivity|].
  split.
  { repeat constructor; simpl; intuition discriminate. }
  split; [reflexivity|].
  split; [right; right; left; reflexivity|].
  repeat split;
    try (apply (not_substring_char "%"%char); [left; reflexivity|];
         simpl; intuition discriminate).
Qed.

(** ** Export: the writer, and the reader on what it wrote *)

Module CsvFacts.

Import Csv.

Lemma special_false c :
  special c = false ->
  Ascii.eqb c delimiter = false /\ Ascii.eqb c quotechar = false /\ is_newline c = false.
Proof.
  unfold special, is_newline, lineterminator. simpl.
  destruct (Ascii.eqb c delimiter), (Ascii.eqb c quotechar), (Ascii.eqb c CR),
    (Ascii.eqb c LF); simpl; intros H; try discriminate; auto.
Qed.

Lemma escape_plain f : existsb special f = false -> escape f = f.
Proof.
  induction f as [|c f IH]; simpl; [reflexivity|].
  intros H. apply orb_false_iff in H as [Hc Hf].
  apply special_false in Hc as (_ & -> & _). rewrite (IH Hf). reflexivity.
Qed.

Lemma line_end_plain c t : is_newline c = false -> t <> [] -> line_end c t = false.
Proof.
  unfold is_newline. intros H Ht. destruct t as [|c2 t]; [contradiction Ht; reflexivity|].
  apply orb_false_iff in H as [H1 H2]. unfold line_end. rewrite H1, H2. reflexivity.
Qed.

Lemma line_end_LF t : line_end LF t = true.
Proof. destruct t; reflexivity. Qed.

Lemma read_from_cons r done c t r1 :
  parse_process_char r (Some c) = Some r1 -> line_end c t = false ->
  read_from r done (c :: t) = read_from r1 done t.
Proof. intros H1 H2. simpl. rewrite H1, H2. reflexivity. Qed.

(** Inside a quoted field every character but the quote is taken as it
    is, line breaks included. *)
Lemma read_from_quoted_char f0 fs done c t :
  Ascii.eqb c quotechar = false ->
  read_from (Reader IN_QUOTED_FIELD f0 fs) done (c :: t)
  = read_from (Reader IN_QUOTED_FIELD (f0 ++ [c]) fs) done t.
Proof.
  intros H. simpl. unfold parse_process_char. simpl. rewrite H.
  destruct (line_end c t); reflexivity.
Qed.

Lemma read_from_quoted_body f : forall f0 fs done t, t <> [] ->
  read_from (Reader IN_QUOTED_FIELD f0 fs) done (escape f ++ quotechar :: t)
  = read_from (Reader QUOTE_IN_QUOTED_FIELD (f0 ++ f) fs) done t.
Proof.
  induction f as [|c f IH]; intros f0 fs done t Ht.
  - rewrite app_nil_r. apply read_from_cons; [reflexivity|].
    apply line_end_plain; [reflexivity | exact Ht].
  - simpl escape. destruct (Ascii.eqb c quotechar) eqn:Ec.
    + apply Ascii.eqb_eq in Ec. subst c. cbn [List.app].
      rewrite (read_from_cons _ _ _ _ (Reader QUOTE_IN_QUOTED_FIELD f0 fs));
        [|reflexivity | reflexivity].
      rewrite (read_from_cons _ _ _ _ (Reader IN_QUOTED_FIELD (f0 ++ [quotechar]) fs));
        [|reflexivity | apply line_end_plain; [reflexivity|]; destruct (escape f); discriminate].
      rewrite (IH _ _ _ _ Ht), <- app_assoc. reflexivity.
    + cbn [List.app]. rewrite (read_from_quoted_char _ _ _ _ _ Ec).
      rewrite (IH _ _ _ _ Ht), <- app_assoc. reflexivity.
Qed.

(** Outside quotes the characters of a field written without quotes are
    taken as they are. *)
Lemma read_from_plain f : forall f0 fs done t,
  existsb special f = false -> t <> [] ->
  read_from (Reader IN_FIELD f0 fs) done (f ++ t)
  = read_from (Reader IN_FIELD (f0 ++ f) fs) done t.
Proof.
  induction f as [|c f IH]; intros f0 fs done t Hf Ht.
  - rewrite app_nil_r. reflexivity.
  - simpl in Hf. apply orb_false_iff in Hf as [Hc Hf].
    apply special_false in Hc as (Hd & Hq & Hn). cbn [List.app].
    rewrite (read_from_cons _ _ _ _ (Reader IN_FIELD (f0 ++ [c]) fs)).
    + rewrite (IH _ _ _ _ Hf Ht), <- app_assoc. reflexivity.
    + unfold parse_process_char. simpl. rewrite Hn, Hd. reflexivity.
    + apply line_end_plain; [exact Hn|]. destruct f; [exact Ht | discriminate].
Qed.

(** A field that was written with at least one character is read back
    whole, up to the delimiter or line terminator that follows it. *)
Lemma read_from_field f st fs done t :
  opening st -> join_append f <> [] -> t <> [] ->
  exists st', closing st'
    /\ read_from (Reader st [] fs) done (join_append f ++ t)
       = read_from (Reader st' f fs) done t.
Proof.
  intros Hst Hne Ht. unfold join_append in *.
  destruct (existsb special f) eqn:Hs.
  - exists QUOTE_IN_QUOTED_FIELD. split; [right; reflexivity|].
    cbn [List.app]. rewrite <- app_assoc. cbn [List.app].
    rewrite (read_from_cons _ _ _ _ (Reader IN_QUOTED_FIELD [] fs)).
    + apply (read_from_quoted_body f [] fs done t Ht).
    + destruct Hst as [-> | ->]; reflexivity.
    + apply line_end_plain; [reflexivity|]. destruct (escape f); discriminate.
  - exists IN_FIELD. split; [left; reflexivity|].
    rewrite (escape_plain f Hs) in *. destruct f as [|c f]; [contradiction Hne; reflexivity|].
    simpl in Hs. apply orb_false_iff in Hs as [Hc Hf].
    apply special_false in Hc as (Hd & Hq & Hn). cbn [List.app].
    rewrite (read_from_cons _ _ _ _ (Reader IN_FIELD [c] fs)).
    + apply (read_from_plain f [c] fs done t Hf Ht).
    + destruct Hst as [-> | ->]; unfold parse_process_char; simpl; rewrite Hn, Hq, Hd;
        reflexivity.
    + apply line_end_plain; [exact Hn|]. destruct f; [exact Ht | discriminate].
Qed.

Lemma read_from_delimiter st f fs done t :
  closing st \/ (opening st /\ f = []) -> t <> [] ->
  read_from (Reader st f fs) done (delimiter :: t)
  = read_from (Reader START_FIELD [] (fs ++ [f])) done t.
Proof.
  intros Hst Ht. apply read_from_cons.
  - destruct Hst as [[-> | ->] | [[-> | ->] ->]]; reflexivity.
  - apply line_end_plain; [reflexivity | exact Ht].
Qed.

Lemma read_from_lineterminator st f fs done t :
  closing st \/ st = START_FIELD ->
  read_from (Reader st f fs) done (lineterminator ++ t)
  = read_from parse_reset (done ++ [fs ++ [f]]) t.
Proof.
  intros Hst. unfold lineterminator. cbn [List.app].
  rewrite (read_from_cons _ _ _ _ (Reader EAT_CRNL [] (fs ++ [f])));
    [| destruct Hst as [[-> | ->] | ->]; reflexivity | reflexivity].
  cbn [read_from]. rewrite line_end_LF. reflexivity.
Qed.

Lemma join_append_nil f : join_append f = [] -> f = [].
Proof.
  unfold join_append. destruct (existsb special f); [discriminate|].
  destruct f as [|c f]; [reflexivity|]. simpl. destruct (Ascii.eqb c quotechar); discriminate.
Qed.

Lemma join_cons f fs :
  join (f :: fs)
  = join_append f ++ match fs with [] => [] | _ :: _ => delimiter :: join fs end.
Proof. destruct fs; simpl; [rewrite app_nil_r|]; reflexivity. Qed.

(** From the beginning of a field on, the rest of a written record is read
    back. *)
Lemma read_from_join fs : forall f acc done t,
  read_from (Reader START_FIELD [] acc) done (join (f :: fs) ++ lineterminator ++ t)
  = read_from parse_reset (done ++ [acc ++ f :: fs]) t.
Proof.
  induction fs as [|f2 fs IH]; intros f acc done t; rewrite join_cons, <- app_assoc.
  - cbn [List.app].
    destruct (join_append f) as [|c j] eqn:Ej.
    + apply join_append_nil in Ej. subst f. cbn [List.app].
      apply read_from_lineterminator. right. reflexivity.
    + rewrite <- Ej.
      destruct (read_from_field f START_FIELD acc done (lineterminator ++ t))
        as (st' & Hst' & ->); [right; reflexivity | rewrite Ej; discriminate | discriminate |].
      apply read_from_lineterminator. left. exact Hst'.
  - cbn [List.app].
    assert (Hnext : join (f2 :: fs) ++ lineterminator ++ t <> []).
    { destruct (join (f2 :: fs)); discriminate. }
    replace (acc ++ f :: f2 :: fs) with ((acc ++ [f]) ++ f2 :: fs)
      by (rewrite <- app_assoc; reflexivity).
    destruct (join_append f) as [|c j] eqn:Ej.
    + apply join_append_nil in Ej. subst f. cbn [List.app].
      rewrite read_from_delimiter; [apply IH | right; split; [right|]; reflexivity | exact Hnext].
    + rewrite <- Ej.
      destruct (read_from_field f START_FIELD acc done
                  (delimiter :: join (f2 :: fs) ++ lineterminator ++ t))
        as (st' & Hst' & ->); [right; reflexivity | rewrite Ej; discriminate | discriminate |].
      rewrite read_from_delimiter; [apply IH | left; exact Hst' | exact Hnext].
Qed.

Lemma join_append_first f c j :
  join_append f = c :: j -> is_newline c = false.
Proof.
  unfold join_append. destruct (existsb special f) eqn:Hs.
  - intros H. injection H as <- _. reflexivity.
  - rewrite (escape_plain f Hs). intros ->. simpl in Hs.
    apply orb_false_iff in Hs as [Hc _]. apply special_false in Hc. tauto.
Qed.

(** In START_RECORD a character that is no line break is handled as in
    START_FIELD. *)
Lemma read_from_start_record c s done :
  is_newline c = false ->
  read_from parse_reset done (c :: s) = read_from (Reader START_FIELD [] []) done (c :: s).
Proof.
  intros H. unfold parse_reset. simpl. unfold parse_process_char. simpl. rewrite H.
  reflexivity.
Qed.

(** One record: what [writerow] wrote is read back as the record. *)
Lemma read_from_writerow fields done t :
  read_from parse_reset done (writerow fields ++ t)
  = read_from parse_reset (done ++ [fields]) t.
Proof.
  unfold writerow. destruct fields as [|f fs].
  - simpl. rewrite line_end_LF. reflexivity.
  - destruct (join (f :: fs)) as [|c j] eqn:Ej.
    + rewrite join_cons in Ej. apply app_eq_nil in Ej as [Ef Efs].
      apply join_append_nil in Ef. subst f. destruct fs; [|discriminate].
      simpl. rewrite line_end_LF. reflexivity.
    + rewrite <- app_assoc. cbn [List.app].
      rewrite read_from_start_record.
      * change (c :: j ++ lineterminator ++ t) with ((c :: j) ++ lineterminator ++ t).
        rewrite <- Ej. apply (read_from_join fs f [] done t).
      * rewrite join_cons in Ej. destruct (join_append f) as [|c' j'] eqn:Ef.
        -- destruct fs; [discriminate|]. injection Ej as <- _. reflexivity.
        -- injection Ej as <- _. apply (join_append_first f c' j' Ef).
Qed.

Lemma read_from_writerows rows : forall done,
  read_from parse_reset done (writerows rows) = Some (done ++ rows).
Proof.
  unfold writerows. induction rows as [|row rows IH]; intros done; simpl.
  - rewrite app_nil_r. reflexivity.
  - rewrite read_from_writerow, IH, <- app_assoc. reflexivity.
Qed.

(** The round trip of the dialect: the reader returns the records that the
    writer was given, whatever their fields hold. *)
Lemma reader_writerows rows : reader_rows (writerows rows) = Some rows.
Proof. apply (read_from_writerows rows []). Qed.

(** *** Counting lines *)

Lemma no_line_break_Forall s :
  no_line_break s <-> Forall (fun c => is_newline c = false) s.
Proof.
  unfold no_line_break, is_newline. rewrite Forall_forall. split.
  - intros [Hcr Hlf] c Hc. apply orb_false_iff. rewrite !Ascii.eqb_neq.
    split; intros ->; auto.
  - intros H. split; intros Hc; apply H in Hc; discriminate Hc.
Qed.

Lemma count_lines_no_newline a : forall b,
  Forall (fun c => is_newline c = false) a -> b <> [] ->
  count_lines (a ++ b) = count_lines b.
Proof.
  induction a as [|c a IH]; intros b Ha Hb; [reflexivity|].
  inversion Ha as [|? ? Hc Ha']; subst. cbn [List.app count_lines].
  rewrite line_end_plain; [apply (IH b Ha' Hb) | exact Hc |].
  destruct a; [exact Hb | discriminate].
Qed.

Lemma count_lines_lineterminator t :
  count_lines (lineterminator ++ t) = S (count_lines t).
Proof. unfold lineterminator. cbn [List.app count_lines]. rewrite line_end_LF. reflexivity. Qed.

Lemma escape_no_newline f :
  Forall (fun c => is_newline c = false) f ->
  Forall (fun c => is_newline c = false) (escape f).
Proof.
  induction 1 as [|c f Hc Hf IH]; simpl; [constructor|].
  destruct (Ascii.eqb c quotechar); repeat constructor; auto.
Qed.

Lemma join_append_no_newline f :
  Forall (fun c => is_newline c = false) f ->
  Forall (fun c => is_newline c = false) (join_append f).
Proof.
  intros H. unfold join_append. destruct (existsb special f).
  - constructor; [reflexivity|]. apply Forall_app. split.
    + apply escape_no_newline, H.
    + repeat constructor.
  - apply escape_no_newline, H.
Qed.

Lemma join_no_newline (fields : list str) :
  Forall (Forall (fun c => is_newline c = false)) fields ->
  Forall (fun c => is_newline c = false) (join fields).
Proof.
  induction 1 as [|f fs Hf Hfs IH]; [constructor|].
  rewrite join_cons. apply Forall_app. split; [apply join_append_no_newline, Hf|].
  destruct fs; [constructor|]. constructor; [reflexivity | exact IH].
Qed.

Lemma count_lines_writerow (fields : list str) t :
  Forall (Forall (fun c => is_newline c = false)) fields ->
  count_lines (writerow fields ++ t) = S (count_lines t).
Proof.
  intros H. unfold writerow. rewrite <- app_assoc.
  rewrite count_lines_no_newline.
  - apply count_lines_lineterminator.
  - apply join_no_newline in H. destruct fields as [|f fs]; [exact H|].
    destruct (join (f :: fs)); [repeat constructor | exact H].
  - discriminate.
Qed.

Lemma count_lines_writerows rows :
  Forall (Forall (Forall (fun c => is_newline c = false))) rows ->
  count_lines (writerows rows) = List.length rows.
Proof.
  unfold writerows. induction 1 as [|row rows Hrow Hrows IH]; simpl; [reflexivity|].
  rewrite (count_lines_writerow row _ Hrow), IH. reflexivity.
Qed.

Lemma uint_no_newline d :
  Forall (fun c => is_newline c = false)
         (list_ascii_of_string (NilEmpty.string_of_uint d)).
Proof. induction d; simpl; constructor; auto. Qed.

Lemma int_str_no_newline z : Forall (fun c => is_newline c = false) (int_str z).
Proof.
  unfold int_str, NilZero.string_of_int, NilZero.string_of_uint.
  destruct (Z.to_int z) as [d | d]; simpl.
  - destruct d; try apply uint_no_newline. repeat constructor.
  - constructor; [reflexivity|].
    destruct d; try apply uint_no_newline. repeat constructor.
Qed.

Lemma int_of_str_int_str z : int_of_str (int_str z) = Some z.
Proof.
  unfold int_of_str, int_str. rewrite string_of_list_ascii_of_string.
  rewrite NilZero.isi.
  - simpl. rewrite DecimalZ.of_to. reflexivity.
  - destruct z; simpl; try discriminate.
    intros H. injection H as H. revert H. apply DecimalPos.Unsigned.to_uint_nonnil.
  - destruct z; simpl; try discriminate.
    intros H. injection H as H. revert H. apply DecimalPos.Unsigned.to_uint_nonnil.
Qed.

End CsvFacts.

Import CsvFacts.

Lemma digit_no_newline n : Csv.is_newline (Sample.digit n) = false.
Proof.
  unfold Sample.digit.
  assert (H : (Z.to_nat (n mod 10) < 10)%nat).
  { pose proof (Z.mod_pos_bound n 10 eq_refl). lia. }
  destruct (Z.to_nat (n mod 10)) as [|m]; [reflexivity|].
  do 9 (destruct m as [|m]; [reflexivity|]). lia.
Qed.

Lemma frac_digits_no_newline fuel : forall n d,
  Forall (fun c => Csv.is_newline c = false) (Sample.frac_digits fuel n d).
Proof.
  induction fuel as [|fuel IH]; intros n d; simpl; [constructor|].
  destruct (n =? 0); constructor; [apply digit_no_newline | apply IH].
Qed.

Lemma sample_float_str_no_line_break x : no_line_break (Sample.float_str x).
Proof.
  apply no_line_break_Forall. destruct x as [| [] | q]; simpl; try (repeat constructor).
  apply Forall_app. split; [destruct (Qnum q <? 0); repeat constructor|].
  apply Forall_app. split; [apply int_str_no_newline|].
  constructor; [reflexivity|].
  destruct (Sample.frac_digits _ _ _) eqn:E; [repeat constructor|].
  rewrite <- E. apply frac_digits_no_newline.
Qed.

Lemma header_line :
  Csv.writerow header = lit "ID,First Name,Last Name,Course,Grade" ++ Csv.lineterminator.
Proof. reflexivity. Qed.

(** C8, counterexample. One record whose first name holds a line feed is
    exported as three lines, not two: the name is written between quotes
    with its line feed. *)
Lemma export_name_with_line_break :
  List.length (rows Sample.two_line_name) = 1%nat
  /\ Csv.count_lines (Database.export_to_csv Sample.float_str Sample.two_line_name) = 3%nat.
Proof. split; reflexivity. Qed.

(** C8, as amended. For a table of N records, the export is the header
    record [ID,First Name,Last Name,Course,Grade] followed by one record per
    stored row, in the order of the table, each ended by CR LF and written
    with the quoting of the dialect. The reader returns from this text N+1
    records, the header and the fields of each row; read back, with [int]
    for the id and [float] for the grade, they are the stored records
    themselves, given that the text of each stored grade reads back as the
    grade. When no first name, last name or course, and no text of a stored
    grade, holds a line break, the text is exactly N+1 lines. *)
Theorem export_to_csv_round_trip py_float float_str db :
  Database.export_to_csv float_str db
  = lit "ID,First Name,Last Name,Course,Grade" ++ Csv.lineterminator
    ++ Csv.writerows (map (csv_fields float_str) (rows db))
  /\ Csv.reader_rows (Database.export_to_csv float_str db)
     = Some (header :: map (csv_fields float_str) (rows db))
  /\ (forall r, In r (rows db) ->
        csv_fields float_str r
        = [int_str (id r); first_name r; last_name r; course r; float_str (grade r)]
        /\ int_of_str (int_str (id r)) = Some (id r))
  /\ ((forall r, In r (rows db) -> py_float (float_str (grade r)) = inr (grade r)) ->
      exists records,
        Csv.reader_rows (Database.export_to_csv float_str db) = Some (header :: records)
        /\ map (parse_record py_float) records = map Some (rows db))
  /\ ((forall r, In r (rows db) -> no_line_break (float_str (grade r))) ->
      Forall one_line (rows db) ->
      Csv.count_lines (Database.export_to_csv float_str db) = S (List.length (rows db))).
Proof.
  unfold Database.export_to_csv. split; [|split; [|split; [|split]]].
  - rewrite header_line, <- app_assoc. reflexivity.
  - apply (reader_writerows (header :: map (csv_fields float_str) (rows db))).
  - intros r _. split; [reflexivity | apply int_of_str_int_str].
  - intros Hf. exists (map (csv_fields float_str) (rows db)).
    split; [apply (reader_writerows (header :: map (csv_fields float_str) (rows db)))|].
    rewrite map_map. apply map_ext_in. intros r Hr. unfold csv_fields, parse_record.
    rewrite int_of_str_int_str, (Hf r Hr). destruct r; reflexivity.
  - intros Hf Hrows.
    rewrite (count_lines_writerow header); [|repeat constructor].
    rewrite count_lines_writerows, length_map; [reflexivity|].
    apply Forall_map. rewrite Forall_forall in Hrows |- *.
    intros r Hr. destruct (Hrows r Hr) as (H1 & H2 & H3). unfold csv_fields.
    apply no_line_break_Forall in H1, H2, H3.
    pose proof (proj1 (no_line_break_Forall _) (Hf r Hr)) as H4.
    pose proof (int_str_no_newline (id r)) as H0.
    repeat (constructor; [assumption|]). constructor.
Qed.

Lemma export_to_csv_round_trip_witness :
  (forall r, In r (rows Sample.seed) ->
     SampleDecimal.py_float (Sample.float_str (grade r)) = inr (grade r))
  /\ (forall r, In r (rows Sample.seed) -> no_line_break (Sample.float_str (grade r)))
  /\ Forall one_line (rows Sample.seed)
  /\ (exists records,
        Csv.reader_rows (Database.export_to_csv Sample.float_str Sample.seed)
        = Some (header :: records)
        /\ map (parse_record SampleDecimal.py_float) records = map Some (rows Sample.seed))
  /\ Csv.count_lines (Database.export_to_csv Sample.float_str Sample.seed) = 4%nat
  /\ (exists records,
        Csv.reader_rows (Database.export_to_csv Sample.float_str Sample.two_line_name)
        = Some (header :: records)
        /\ map (parse_record SampleDecimal.py_float) records
           = map Some (rows Sample.two_line_name)).
Proof.
  assert (Hfloat : forall r, In r (rows Sample.seed) ->
            SampleDecimal.py_float (Sample.float_str (grade r)) = inr (grade r)).
  { intros r [<- | [<- | [<- | []]]]; reflexivity. }
  assert (Hfloat2 : forall r, In r (rows Sample.two_line_name) ->
            SampleDecimal.py_float (Sample.float_str (grade r)) = inr (grade r)).
  { intros r [<- | []]; reflexivity. }
  assert (Hline : forall r, In r (rows Sample.seed) ->
            no_line_break (Sample.float_str (grade r))).
  { intros r _. apply sample_float_str_no_line_break. }
  assert (Hrows : Forall one_line (rows Sample.seed)).
  { repeat constructor; simpl; intuition discriminate. }
  split; [exact Hfloat | split; [exact Hline | split; [exact Hrows|]]].
  split; [|split].
  - exact (proj1 (proj2 (proj2 (proj2
             (export_to_csv_round_trip SampleDecimal.py_float Sample.float_str Sample.seed))))
             Hfloat).
  - exact (proj2 (proj2 (proj2 (proj2
             (export_to_csv_round_trip SampleDecimal.py_float Sample.float_str Sample.seed))))
             Hline Hrows).
  - exact (proj1 (proj2 (proj2 (proj2
             (export_to_csv_round_trip SampleDecimal.py_float Sample.float_str
                Sample.two_line_name))))
             Hfloat2).
Defined.

(** ** Further properties of the record store *)

Lemma max_rowid_nonneg l : 0 <= max_rowid l.
Proof. induction l as [|r l IH]; simpl; lia. Qed.

Lemma seq_lt_next_rowid d : seq d < next_rowid d.
Proof. unfold next_rowid. lia. Qed.

Lemma seq_le_after_call d k : seq d <= seq (after_call d k).
Proof.
  destruct k as [fn ln c g | sid fn ln c g | sid]; simpl.
  - unfold Database.add_student. destruct (constraints g); simpl; [|lia].
    pose proof (seq_lt_next_rowid d). lia.
  - unfold Database.update_student. destruct (existsb _ _); [|lia].
    destruct (constraints g); simpl; lia.
  - lia.
Qed.

Lemma seq_le_calls ks : forall d, seq d <= seq (fold_left after_call ks d).
Proof.
  induction ks as [|k ks IH]; intros d; simpl; [lia|].
  pose proof (seq_le_after_call d k). pose proof (IH (after_call d k)). lia.
Qed.

(** The stored ids are positive and at most the id counter. *)
Lemma ids_bounded_after_call d k :
  (forall r, In r (rows d) -> 0 < id r <= seq d) ->
  forall r, In r (rows (after_call d k)) -> 0 < id r <= seq (after_call d k).
Proof.
  intros H. destruct k as [fn ln c g | sid fn ln c g | sid]; simpl.
  - unfold Database.add_student. destruct (constraints g); simpl; [|exact H].
    intros r Hr. apply in_app_or in Hr as [Hr | [<- | []]].
    + apply H in Hr. pose proof (seq_lt_next_rowid d). lia.
    + simpl. unfold next_rowid. pose proof (max_rowid_nonneg (rows d)). lia.
  - unfold Database.update_student. destruct (existsb _ _); [|exact H].
    destruct (constraints g); simpl; [|exact H].
    intros r Hr. apply in_map_iff in Hr as (r0 & <- & Hr0). apply H in Hr0.
    destruct (has_id sid r0); exact Hr0.
  - intros r Hr. apply filter_In in Hr as [Hr _]. apply H, Hr.
Qed.

Lemma ids_bounded_calls ks : forall d,
  (forall r, In r (rows d) -> 0 < id r <= seq d) ->
  forall r, In r (rows (fold_left after_call ks d)) ->
            0 < id r <= seq (fold_left after_call ks d).
Proof.
  induction ks as [|k ks IH]; intros d H; simpl; [exact H|].
  apply IH, ids_bounded_after_call, H.
Qed.

(** X1. An id is never handed out twice. Whatever the calls made on a new
    table, a record stored at some point has a positive id, and after any
    further calls, deletes of that record included, the id that the next
    insert assigns is larger. *)
Theorem rowid_never_reused ks ks' r :
  In r (rows (fold_left after_call ks initialize_db)) ->
  0 < id r
  /\ id r < next_rowid (fold_left after_call ks' (fold_left after_call ks initialize_db)).
Proof.
  intros Hr.
  assert (H : 0 < id r <= seq (fold_left after_call ks initialize_db)).
  { apply (ids_bounded_calls ks initialize_db); [|exact Hr]. intros r' []. }
  pose proof (seq_le_calls ks' (fold_left after_call ks initialize_db)).
  pose proof (seq_lt_next_rowid
                (fold_left after_call ks' (fold_left after_call ks initialize_db))).
  lia.
Qed.

Lemma rowid_never_reused_witness :
  In Sample.anna
     (rows (fold_left after_call
              [Call_add (lit "Anna") (lit "Lee") (lit "Math") (of_Z 90)] initialize_db))
  /\ next_rowid (fold_left after_call [Call_delete 1]
                   (fold_left after_call
                      [Call_add (lit "Anna") (lit "Lee") (lit "Math") (of_Z 90)]
                      initialize_db)) = 2
  /\ id Sample.anna
     < next_rowid (fold_left after_call [Call_delete 1]
                     (fold_left after_call
                        [Call_add (lit "Anna") (lit "Lee") (lit "Math") (of_Z 90)]
                        initialize_db)).
Proof.
  assert (H : In Sample.anna
     (rows (fold_left after_call
              [Call_add (lit "Anna") (lit "Lee") (lit "Math") (of_Z 90)] initialize_db)))
    by (left; reflexivity).
  split; [exact H | split; [reflexivity|]].
  exact (proj2 (rowid_never_reused
                  [Call_add (lit "Anna") (lit "Lee") (lit "Math") (of_Z 90)]
                  [Call_delete 1] Sample.anna H)).
Defined.

Lemma update_row_idempotent sid fn ln c g r :
  (fun r => if has_id sid r then set_fields fn ln c g r else r)
    (if has_id sid r then set_fields fn ln c g r else r)
  = if has_id sid r then set_fields fn ln c g r else r.
Proof.
  simpl. destruct (has_id sid r) eqn:E; [|rewrite E; reflexivity].
  unfold has_id in *. simpl. rewrite E. reflexivity.
Qed.

Lemma existsb_has_id_update sid fn ln c g l :
  existsb (has_id sid) (map (fun r => if has_id sid r then set_fields fn ln c g r else r) l)
  = existsb (has_id sid) l.
Proof.
  induction l as [|r l IH]; simpl; [reflexivity|]. rewrite IH. f_equal.
  destruct (has_id sid r) eqn:E; [|exact E]. unfold has_id in *. simpl. exact E.
Qed.

(** X2. An update that succeeded changes nothing when it is made again:
    the second call succeeds and returns the table of the first. *)
Theorem update_student_idempotent db sid fn ln c g d :
  Database.update_student db sid fn ln c g = Ok d ->
  Database.update_student d sid fn ln c g = Ok d.
Proof.
  unfold Database.update_student.
  destruct (existsb (has_id sid) (rows db)) eqn:Ex.
  - destruct (constraints g) as [v | e] eqn:Ec; simpl; [|discriminate].
    intros H. injection H as <-.
    pose proof (constraints_Ok g v Ec) as [-> _]. cbn [rows seq].
    rewrite existsb_has_id_update, Ex. f_equal. f_equal.
    rewrite map_map. apply map_ext. intros r. apply update_row_idempotent.
  - intros H. injection H as <-. rewrite Ex. reflexivity.
Qed.

Lemma update_student_idempotent_witness :
  exists d,
    Database.update_student Sample.seed 3 (lit "Rob") (lit "Smith") (lit "Art") (of_Z 71) = Ok d
    /\ Database.update_student d 3 (lit "Rob") (lit "Smith") (lit "Art") (of_Z 71) = Ok d.
Proof.
  eexists. split; [reflexivity|].
  apply (update_student_idempotent Sample.seed 3 (lit "Rob") (lit "Smith") (lit "Art") (of_Z 71)).
  reflexivity.
Defined.

Lemma filter_comm {A} (f g : A -> bool) l :
  filter f (filter g l) = filter g (filter f l).
Proof.
  induction l as [|a l IH]; simpl; [reflexivity|].
  destruct (f a) eqn:Ef, (g a) eqn:Eg; simpl; rewrite ?Ef, ?Eg, IH; reflexivity.
Qed.

Lemma filter_idem {A} (f : A -> bool) l : filter f (filter f l) = filter f l.
Proof.
  apply filter_all. intros x Hx. apply filter_In in Hx as [_ Hx]. exact Hx.
Qed.

(** X3. Deletes commute, and a delete made twice is the same as the delete
    made once. *)
Theorem delete_student_commutes db a b :
  Database.delete_student (Database.delete_student db a) b
  = Database.delete_student (Database.delete_student db b) a
  /\ Database.delete_student (Database.delete_student db a) a
     = Database.delete_student db a.
Proof.
  unfold Database.delete_student. simpl. split; f_equal.
  - apply filter_comm.
  - apply filter_idem.
Qed.

(** X4. An insert followed by the delete of the id it assigned gives back
    the rows of before, in the same order; the id stays spent, so the next
    insert gets a larger one. *)
Theorem add_then_delete_restores_rows db fn ln c g d :
  Database.add_student db fn ln c g = Ok d ->
  rows (Database.delete_student d (next_rowid db)) = rows db
  /\ seq (Database.delete_student d (next_rowid db)) = next_rowid db
  /\ next_rowid db < next_rowid (Database.delete_student d (next_rowid db)).
Proof.
  unfold Database.add_student. destruct (constraints g) as [v | e]; simpl; [|discriminate].
  intros H. injection H as <-. simpl.
  assert (E : filter (fun r => negb (has_id (next_rowid db) r))
                (rows db ++ [Student (next_rowid db) fn ln c v]) = rows db).
  { rewrite filter_app. simpl. unfold has_id at 2. simpl. rewrite Z.eqb_refl. simpl.
    rewrite app_nil_r. apply delete_keeps_others. intros r Hr Er.
    apply (next_rowid_fresh db). rewrite <- Er. apply in_map, Hr. }
  split; [exact E | split; [reflexivity|]].
  unfold next_rowid at 2. simpl. rewrite E. fold (next_rowid db). lia.
Qed.

Lemma add_then_delete_restores_rows_witness :
  exists d,
    Database.add_student Sample.seed (lit "Zoe") (lit "Hill") (lit "Law") (of_Z 60) = Ok d
    /\ rows (Database.delete_student d 4) = rows Sample.seed
    /\ seq (Database.delete_student d 4) = 4
    /\ 4 < next_rowid (Database.delete_student d 4).
Proof.
  eexists. split; [reflexivity|].
  apply (add_then_delete_restores_rows Sample.seed (lit "Zoe") (lit "Hill") (lit "Law") (of_Z 60)).
  reflexivity.
Defined.

(** ** Further properties of the search *)

Lemma like_percent_percent t : Like.like [Like.percent; Like.percent] t = true.
Proof.
  apply like_percent_iff. exists [], t. split; [reflexivity | apply like_percent_only].
Qed.

(** X5. The search for the empty text returns every stored record, in the
    order of the table. *)
Theorem search_empty_text_returns_all db :
  Database.search_students db [] = Ok (get_all_students db).
Proof.
  rewrite search_students_short by (vm_compute; discriminate).
  unfold get_all_students. f_equal.
  apply filter_all. intros r _. apply orb_true_iff. left. apply like_percent_percent.
Qed.

Lemma lower_idempotent c : Like.lower (Like.lower c) = Like.lower c.
Proof. destruct c as [[] [] [] [] [] [] [] []]; reflexivity. Qed.

Lemma lower_is_percent c :
  Ascii.eqb (Like.lower c) Like.percent = Ascii.eqb c Like.percent.
Proof. destruct c as [[] [] [] [] [] [] [] []]; reflexivity. Qed.

Lemma lower_is_underscore c :
  Ascii.eqb (Like.lower c) Like.underscore = Ascii.eqb c Like.underscore.
Proof. destruct c as [[] [] [] [] [] [] [] []]; reflexivity. Qed.

(** A pattern matches what its lower-case form matches. *)
Lemma like_lower_pattern pat : forall t,
  Like.like (map Like.lower pat) t = Like.like pat t.
Proof.
  induction pat as [|p pat IH]; intros t; [reflexivity|].
  cbn [map]. destruct (Ascii.eqb p Like.percent) eqn:Ep.
  - apply Ascii.eqb_eq in Ep. subst p.
    change (Like.lower Like.percent) with Like.percent.
    induction t as [|c t IHt].
    + rewrite (like_percent (map Like.lower pat) []), (like_percent pat []), IH.
      reflexivity.
    + rewrite (like_percent (map Like.lower pat) (c :: t)), (like_percent pat (c :: t)).
      rewrite IH, IHt. reflexivity.
  - rewrite (like_char p pat t Ep).
    assert (Ep' : Ascii.eqb (Like.lower p) Like.percent = false)
      by (rewrite lower_is_percent; exact Ep).
    rewrite (like_char _ _ t Ep'), lower_is_underscore, lower_idempotent.
    destruct t as [|c t]; [reflexivity|]. rewrite IH. reflexivity.
Qed.

Lemma lower_is_NUL c : Ascii.eqb (Like.lower c) Like.NUL = Ascii.eqb c Like.NUL.
Proof. destruct c as [[] [] [] [] [] [] [] []]; reflexivity. Qed.

Lemma c_string_lower p : Like.c_string (map Like.lower p) = map Like.lower (Like.c_string p).
Proof.
  induction p as [|c p IH]; simpl; [reflexivity|].
  rewrite lower_is_NUL. destruct (Ascii.eqb c Like.NUL); [reflexivity|].
  simpl. rewrite IH. reflexivity.
Qed.

(** Two patterns that are equal up to case are refused alike, and match
    the same texts. *)
Lemma like_function_lower pat pat' t :
  map Like.lower pat = map Like.lower pat' ->
  Like.like_function pat t = Like.like_function pat' t.
Proof.
  intros H. unfold Like.like_function.
  assert (El : List.length pat = List.length pat').
  { rewrite <- (length_map Like.lower pat), <- (length_map Like.lower pat'), H.
    reflexivity. }
  rewrite El. destruct (_ <? _); [reflexivity|]. f_equal.
  rewrite <- (like_lower_pattern (Like.c_string pat)),
          <- (like_lower_pattern (Like.c_string pat')).
  rewrite <- !c_string_lower, H. reflexivity.
Qed.

Lemma select_where_ext cond cond' l :
  (forall r, cond r = cond' r) -> select_where cond l = select_where cond' l.
Proof.
  intros H. induction l as [|r l IH]; simpl; [reflexivity|]. rewrite H, IH. reflexivity.
Qed.

(** X6. The case of the ASCII letters of the search text does not matter:
    two texts that are equal up to case find the same records, wildcards
    included. *)
Theorem search_ignores_case_of_text db s s' :
  map Like.lower s = map Like.lower s' ->
  Database.search_students db s = Database.search_students db s'.
Proof.
  intros H. unfold Database.search_students.
  assert (E : map Like.lower (Like.percent :: s ++ [Like.percent])
              = map Like.lower (Like.percent :: s' ++ [Like.percent])).
  { cbn [map]. rewrite !map_app, H. reflexivity. }
  apply select_where_ext. intros r. unfold where_like.
  rewrite (like_function_lower _ _ (first_name r) E),
          (like_function_lower _ _ (last_name r) E).
  reflexivity.
Qed.

Lemma search_ignores_case_of_text_witness :
  Database.search_students Sample.seed (lit "sMiTh")
  = Database.search_students Sample.seed (lit "SMITH")
  /\ Database.search_students Sample.seed (lit "SMITH") = Ok [Sample.bob].
Proof.
  split; [|reflexivity].
  apply (search_ignores_case_of_text Sample.seed (lit "sMiTh") (lit "SMITH")). reflexivity.
Defined.

(** ** Further properties of the form handlers *)

Lemma selection_insert_all l : filter selected (insert_all l) = [].
Proof. induction l as [|r l IH]; simpl; [reflexivity | exact IH]. Qed.

Lemma values_insert_all l : map values (insert_all l) = l.
Proof. unfold insert_all. rewrite map_map. simpl. apply map_id. Qed.

Lemma updated_no_match sid fn ln c g l :
  existsb (has_id sid) l = false -> Forall2 (updated sid fn ln c g) l l.
Proof.
  intros H. apply existsb_has_id_false in H.
  assert (Hall : forall r, In r l -> id r <> sid)
    by (intros r Hr E; apply H; exists r; split; assumption).
  clear H. induction l as [|r l IH]; constructor.
  - split; intros E; [|reflexivity]. exfalso. apply (Hall r (or_introl eq_refl) E).
  - apply IH. intros r' Hr'. apply Hall. right. exact Hr'.
Qed.

(** X7. Update with a row selected and valid entries: the handler returns
    after the success dialog; in the store the records that have the id of
    the first selected row carry the four entries, every other record and
    the id counter are as before; the list shows the whole table again and
    no row is selected. *)
Theorem update_student_selected py_float g it sel x :
  selection g = it :: sel ->
  first_name_entry g <> [] -> last_name_entry g <> [] -> course_entry g <> [] ->
  py_float (grade_entry g) = inr x -> in_range x ->
  exists g', App.update_student py_float g = (g', Returned)
    /\ Forall2 (updated (id (values it)) (first_name_entry g) (last_name_entry g)
                        (course_entry g) x)
               (rows (db g)) (rows (db g'))
    /\ seq (db g') = seq (db g)
    /\ dialogs g' = dialogs g ++ [showinfo (lit "Success") (lit "Student updated successfully")]
    /\ map values (tree g') = get_all_students (db g')
    /\ selection g' = [].
Proof.
  intros Hsel Hf Hl Hc Ef Hx.
  unfold App.update_student, first_selected, float_of. rewrite Hsel, Ef. simpl.
  rewrite (proj2 (invalid_input_false _ _ _ x) (conj Hf (conj Hl (conj Hc Hx)))).
  unfold Database.update_student.
  destruct (existsb (has_id (id (values it))) (rows (db g))) eqn:Ex.
  - rewrite (constraints_in_range x Hx). simpl. eexists. split; [reflexivity|]. simpl.
    split; [apply update_rows_Forall2|].
    split; [reflexivity|]. split; [reflexivity|].
    split; [apply values_insert_all | apply selection_insert_all].
  - simpl. eexists. split; [reflexivity|]. simpl.
    split; [apply updated_no_match, Ex|].
    split; [reflexivity|]. split; [reflexivity|].
    split; [apply values_insert_all | apply selection_insert_all].
Qed.

Lemma update_student_selected_witness :
  let g0 := run Sample.py_float Sample.float_str (startup Sample.seed)
              [Click 1; Type_in FirstName (lit "Ivana"); Type_in Grade (lit "88")] in
  exists g', App.update_student Sample.py_float g0 = (g', Returned)
    /\ Forall2 (updated 2 (lit "Ivana") (lit "Ng") (lit "Physics") (of_Z 88))
               (rows Sample.seed) (rows (db g'))
    /\ seq (db g') = 3
    /\ dialogs g' = [showinfo (lit "Success") (lit "Student updated successfully")]
    /\ map values (tree g') = get_all_students (db g')
    /\ selection g' = [].
Proof.
  intros g0.
  apply (update_student_selected Sample.py_float g0 (Item Sample.ivan true) [] (of_Z 88)).
  - reflexivity.
  - discriminate.
  - discriminate.
  - discriminate.
  - reflexivity.
  - apply in_range_of_Z. lia.
Defined.

(** X8. Update with a row selected is refused, with an error dialog and
    no other change of the state, when the grade entry is not a number,
    when the grade is outside [0, 100], or when the first name, the last
    name or the course is empty. *)
Theorem update_student_rejects py_float g :
  selection g <> [] ->
  ((exists msg, py_float (grade_entry g) = inl msg)
   \/ first_name_entry g = [] \/ last_name_entry g = [] \/ course_entry g = []
   \/ exists x, py_float (grade_entry g) = inr x /\ ~ in_range x) ->
  exists msg, App.update_student py_float g
              = (show (showerror (lit "Error") (lit "Invalid data: " ++ msg)) g, Returned).
Proof.
  intros Hsel H. unfold App.update_student, first_selected, float_of.
  destruct (selection g) as [|it sel]; [contradiction Hsel; reflexivity|]. simpl.
  destruct (py_float (grade_entry g)) as [msg | x] eqn:Ef; simpl.
  - exists msg. reflexivity.
  - assert (Hi : invalid_input (first_name_entry g) (last_name_entry g)
                   (course_entry g) x = true).
    { apply invalid_input_true.
      destruct H as [[msg Em] | [H | [H | [H | (y & Ey & H)]]]]; auto.
      - discriminate Em.
      - injection Ey as <-. auto. }
    rewrite Hi. eexists. reflexivity.
Qed.

Lemma update_student_rejects_witness :
  let g0 := run Sample.py_float Sample.float_str (startup Sample.seed)
              [Click 1; Type_in Grade (lit "eighty")] in
  selection g0 <> []
  /\ exists msg, App.update_student Sample.py_float g0
                 = (show (showerror (lit "Error") (lit "Invalid data: " ++ msg)) g0, Returned).
Proof.
  intros g0.
  assert (Hsel : selection g0 <> []) by discriminate.
  split; [exact Hsel|].
  apply (update_student_rejects Sample.py_float g0 Hsel).
  left. eexists. reflexivity.
Defined.

(** X9. How the three handlers end. Add and Delete always return: no
    exception leaves them, whatever the state of the form. Update returns
    whenever a row is selected, and ends in an uncaught IndexError exactly
    when none is. *)
Theorem handlers_outcome py_float g :
  snd (App.add_student py_float g) = Returned
  /\ snd (App.delete_student g) = Returned
  /\ snd (App.update_student py_float g)
     = match selection g with [] => Uncaught IndexError | _ :: _ => Returned end.
Proof.
  split; [|split].
  - unfold App.add_student, float_of.
    destruct (py_float (grade_entry g)) as [msg | x]; simpl; [reflexivity|].
    destruct (invalid_input _ _ _ x) eqn:Ei; simpl; [reflexivity|].
    apply invalid_input_false in Ei as (_ & _ & _ & Hx).
    rewrite (add_student_in_range (db g) _ _ _ x Hx). reflexivity.
  - unfold App.delete_student, first_selected. destruct (selection g); reflexivity.
  - unfold App.update_student, first_selected, float_of.
    destruct (selection g) as [|it sel]; simpl; [reflexivity|].
    destruct (py_float (grade_entry g)) as [msg | x]; simpl; [reflexivity|].
    destruct (invalid_input _ _ _ x) eqn:Ei; simpl; [reflexivity|].
    apply invalid_input_false in Ei as (_ & _ & _ & Hx).
    unfold Database.update_student. destruct (existsb _ _); [|reflexivity].
    rewrite (constraints_in_range x Hx). reflexivity.
Qed.

Lemma selection_after_delete g : selection (fst (App.delete_student g)) = [].
Proof.
  unfold App.delete_student, first_selected.
  destruct (selection g) as [|it sel] eqn:E; simpl.
  - exact E.
  - apply selection_insert_all.
Qed.

(** X10. Two presses of Delete never delete two records: whatever the
    first press did, it leaves no row selected, so the second shows the
    warning and changes nothing else. *)
Theorem delete_student_twice_warns g :
  App.delete_student (fst (App.delete_student g))
  = (show (showwarning (lit "Warning") (lit "No student selected"))
          (fst (App.delete_student g)), Returned).
Proof.
  pose proof (selection_after_delete g) as H.
  unfold App.delete_student at 1. unfold first_selected. rewrite H. reflexivity.
Qed.

(** ** What the list shows *)

Lemma values_select_only t : forall row, map values (select_only row t) = map values t.
Proof.
  induction t as [|it t IH]; intros [|n]; simpl; try reflexivity.
  - f_equal. rewrite map_map. reflexivity.
  - f_equal. apply IH.
Qed.

Lemma values_toggle t : forall row, map values (toggle row t) = map values t.
Proof.
  induction t as [|it t IH]; intros [|n]; simpl; try reflexivity.
  f_equal. apply IH.
Qed.

Lemma filter_true {A} (l : list A) : filter (fun _ => true) l = l.
Proof. apply filter_all. reflexivity. Qed.

Lemma filter_false {A} (l : list A) : filter (fun _ => false) l = [].
Proof. induction l as [|a l IH]; simpl; [reflexivity | exact IH]. Qed.

Section View.

Variable py_float : str -> str + pyfloat.
Variable float_str : pyfloat -> str.

Lemma tree_select_student g : tree (select_student float_str g) = tree g.
Proof. unfold select_student. destruct (selection g); reflexivity. Qed.

Lemma add_handler_view g :
  (tree (fst (App.add_student py_float g)) = tree g
   /\ db (fst (App.add_student py_float g)) = db g)
  \/ map values (tree (fst (App.add_student py_float g)))
     = rows (db (fst (App.add_student py_float g))).
Proof.
  unfold App.add_student, float_of.
  destruct (py_float (grade_entry g)) as [msg | x]; simpl; [left; split; reflexivity|].
  destruct (invalid_input _ _ _ x); simpl; [left; split; reflexivity|].
  destruct (Database.add_student (db g) _ _ _ x) as [d | e]; simpl.
  - right. apply values_insert_all.
  - left. destruct e; split; reflexivity.
Qed.

Lemma update_handler_view g :
  (tree (fst (App.update_student py_float g)) = tree g
   /\ db (fst (App.update_student py_float g)) = db g)
  \/ map values (tree (fst (App.update_student py_float g)))
     = rows (db (fst (App.update_student py_float g))).
Proof.
  unfold App.update_student, float_of, first_selected.
  destruct (selection g) as [|it sel]; simpl; [left; split; reflexivity|].
  destruct (py_float (grade_entry g)) as [msg | x]; simpl; [left; split; reflexivity|].
  destruct (invalid_input _ _ _ x); simpl; [left; split; reflexivity|].
  destruct (Database.update_student (db g) _ _ _ _ x) as [d | e]; simpl.
  - right. apply values_insert_all.
  - left. destruct e; split; reflexivity.
Qed.

Lemma delete_handler_view g :
  (tree (fst (App.delete_student g)) = tree g /\ db (fst (App.delete_student g)) = db g)
  \/ map values (tree (fst (App.delete_student g))) = rows (db (fst (App.delete_student g))).
Proof.
  unfold App.delete_student, first_selected.
  destruct (selection g) as [|it sel]; simpl; [left; split; reflexivity|].
  right. apply values_insert_all.
Qed.

Lemma view_of_handler (g g' : app) :
  (exists keep, map values (tree g) = filter keep (rows (db g))) ->
  (tree g' = tree g /\ db g' = db g) \/ map values (tree g') = rows (db g') ->
  exists keep, map values (tree g') = filter keep (rows (db g')).
Proof.
  intros [keep H] [[Et Ed] | E].
  - exists keep. rewrite Et, Ed. exact H.
  - exists (fun _ => true). rewrite filter_true. exact E.
Qed.

Lemma view_step g e :
  (exists keep, map values (tree g) = filter keep (rows (db g))) ->
  exists keep, map values (tree (step py_float float_str g e))
               = filter keep (rows (db (step py_float float_str g e))).
Proof.
  intros H. destruct e; simpl.
  - destruct f; exact H.
  - destruct (row <? List.length (tree g))%nat;
      rewrite tree_select_student, db_select_student; [|exact H].
    simpl. rewrite values_select_only. exact H.
  - rewrite tree_select_student, db_select_student. simpl.
    rewrite values_toggle. exact H.
  - apply (view_of_handler g _ H), add_handler_view.
  - apply (view_of_handler g _ H), update_handler_view.
  - apply (view_of_handler g _ H), delete_handler_view.
  - unfold App.search_students.
    destruct (Database.search_students (db g) (search_entry g)) as [found | e] eqn:E; simpl.
    + destruct (search_students_Ok_filter _ _ _ E) as [keep ->].
      exists keep. apply values_insert_all.
    + exists (fun _ => false). rewrite filter_false. reflexivity.
  - unfold App.export_to_csv. destruct (is_empty file_path); exact H.
  - exists (fun _ => true). rewrite filter_true. apply values_insert_all.
Qed.

Lemma view_run es : forall g,
  (exists keep, map values (tree g) = filter keep (rows (db g))) ->
  exists keep, map values (tree (run py_float float_str g es))
               = filter keep (rows (db (run py_float float_str g es))).
Proof.
  induction es as [|e es IH]; intros g H; simpl; [exact H|].
  apply IH, view_step, H.
Qed.

Lemma view_reachable g :
  reachable py_float float_str g ->
  exists keep, map values (tree g) = filter keep (rows (db g)).
Proof.
  intros [es ->]. apply view_run. exists (fun _ => true). reflexivity.
Qed.

End View.

(** X11. The list never shows a record that is not stored: in every
    state that user actions lead to from the first launch, the rows of the
    list are a selection of the rows of the table, in the order of the
    table; so every displayed row is a stored record. *)
Theorem tree_shows_stored_records py_float float_str g :
  reachable py_float float_str g ->
  (exists keep, map values (tree g) = filter keep (rows (db g)))
  /\ forall it, In it (tree g) -> In (values it) (rows (db g)).
Proof.
  intros Hr. destruct (view_reachable py_float float_str g Hr) as [keep H].
  split; [exists keep; exact H|].
  intros it Hit. apply (in_map values) in Hit. rewrite H in Hit.
  apply filter_In in Hit as [Hit _]. exact Hit.
Qed.

Lemma tree_shows_stored_records_witness :
  let g := run Sample.py_float Sample.float_str (startup initialize_db)
             [Type_in FirstName (lit "Anna"); Type_in LastName (lit "Lee");
              Type_in Course (lit "Math"); Type_in Grade (lit "90"); Press_add;
              Type_in FirstName (lit "Bob"); Type_in LastName (lit "Smith"); Press_add;
              Type_in Search (lit "bo"); Press_search; Click 0; Press_delete;
              Press_search] in
  map values (tree g) = []
  /\ rows (db g) = [Student 1 (lit "Anna") (lit "Lee") (lit "Math") (of_Z 90)]
  /\ (exists keep, map values (tree g) = filter keep (rows (db g)))
  /\ forall it, In it (tree g) -> In (values it) (rows (db g)).
Proof.
  intros g. split; [reflexivity | split; [reflexivity|]].
  apply (tree_shows_stored_records Sample.py_float Sample.float_str g).
  eexists. reflexivity.
Defined.

Lemma delete_unique_split d r :
  unique_ids d -> In r (rows d) ->
  exists pre post, rows d = pre ++ r :: post
                   /\ rows (Database.delete_student d (id r)) = pre ++ post.
Proof.
  intros Hu Hr. apply in_split in Hr as (pre & post & Hrows).
  exists pre, post. split; [exact Hrows|].
  unfold unique_ids in Hu. unfold Database.delete_student. simpl.
  rewrite Hrows in Hu |- *. rewrite map_app in Hu. simpl in Hu. apply NoDup_remove_2 in Hu.
  rewrite filter_app. simpl. unfold has_id at 2. rewrite Z.eqb_refl. simpl.
  rewrite !delete_keeps_others; [reflexivity | |];
    intros x Hx Ex; apply Hu, in_or_app; rewrite <- Ex;
    [right | left]; apply in_map, Hx.
Qed.

(** X12. Delete with a row selected, in a state that user actions lead to
    from the first launch, removes exactly one record, the one shown in the
    first selected row: the other records stay, in their order. The handler
    returns after the success dialog and the list shows the whole table. *)
Theorem delete_student_removes_selected py_float float_str g it sel :
  reachable py_float float_str g -> selection g = it :: sel ->
  exists pre post,
    rows (db g) = pre ++ values it :: post
    /\ rows (db (fst (App.delete_student g))) = pre ++ post
    /\ snd (App.delete_student g) = Returned
    /\ dialogs (fst (App.delete_student g))
       = dialogs g ++ [showinfo (lit "Success") (lit "Student deleted successfully")]
    /\ map values (tree (fst (App.delete_student g))) = pre ++ post.
Proof.
  intros Hr Hsel.
  assert (Hin : In (values it) (rows (db g))).
  { destruct (view_reachable py_float float_str g Hr) as [keep H].
    assert (Hit : In it (tree g)).
    { assert (Hs : In it (selection g)) by (rewrite Hsel; left; reflexivity).
      apply filter_In in Hs as [Hs _]. exact Hs. }
    apply (in_map values) in Hit. rewrite H in Hit.
    apply filter_In in Hit as [Hit _]. exact Hit. }
  assert (Hu : unique_ids (db g)).
  { destruct Hr as [es ->].
    apply (store_inv_run py_float float_str es (startup initialize_db)
             store_inv_initialize_db). }
  destruct (delete_unique_split (db g) (values it) Hu Hin) as (pre & post & E1 & E2).
  exists pre, post. split; [exact E1|].
  unfold App.delete_student, first_selected. rewrite Hsel. simpl.
  rewrite values_insert_all.
  change (filter (fun r => negb (has_id (id (values it)) r)) (rows (db g)))
    with (rows (Database.delete_student (db g) (id (values it)))).
  rewrite E2. repeat split; reflexivity.
Qed.

Lemma delete_student_removes_selected_witness :
  let g := run Sample.py_float Sample.float_str (startup initialize_db)
             [Type_in FirstName (lit "Anna"); Type_in LastName (lit "Lee");
              Type_in Course (lit "Math"); Type_in Grade (lit "90"); Press_add;
              Type_in FirstName (lit "Bob"); Type_in LastName (lit "Smith"); Press_add;
              Click 0] in
  rows (db (fst (App.delete_student g)))
  = [Student 2 (lit "Bob") (lit "Smith") (lit "Math") (of_Z 90)]
  /\ exists pre post,
       rows (db g) = pre ++ Student 1 (lit "Anna") (lit "Lee") (lit "Math") (of_Z 90) :: post
       /\ rows (db (fst (App.delete_student g))) = pre ++ post
       /\ snd (App.delete_student g) = Returned
       /\ dialogs (fst (App.delete_student g))
          = dialogs g ++ [showinfo (lit "Success") (lit "Student deleted successfully")]
       /\ map values (tree (fst (App.delete_student g))) = pre ++ post.
Proof.
  intros g. split; [reflexivity|].
  apply (delete_student_removes_selected Sample.py_float Sample.float_str g
           (Item (Student 1 (lit "Anna") (lit "Lee") (lit "Math") (of_Z 90)) true)
           [] (ex_intro _ _ eq_refl) eq_refl).
Defined.

(** ** Handlers in sequence *)

Lemma unique_id_eq l : forall a b,
  NoDup (map id l) -> In a l -> In b l -> id a = id b -> a = b.
Proof.
  induction l as [|r l IH]; intros a b Hn Ha Hb E; [contradiction|].
  simpl in Hn. inversion Hn as [|? ? Hnot Hn']; subst.
  destruct Ha as [<- | Ha], Hb as [<- | Hb].
  - reflexivity.
  - exfalso. apply Hnot. rewrite E. apply in_map, Hb.
  - exfalso. apply Hnot. rewrite <- E. apply in_map, Ha.
  - apply IH; assumption.
Qed.

Lemma selection_unselected (t : list item) :
  filter selected (map (fun i => Item (values i) false) t) = [].
Proof. induction t as [|it t IH]; simpl; [reflexivity | exact IH]. Qed.

Lemma selection_select_only t : forall i it,
  nth_error t i = Some it ->
  filter selected (select_only i t) = [Item (values it) true].
Proof.
  induction t as [|a t IH]; intros [|n] it H; simpl in *; try discriminate.
  - injection H as <-. rewrite selection_unselected. reflexivity.
  - apply IH, H.
Qed.

(** An update of a stored record with its own fields changes nothing. *)
Lemma update_same_record d r :
  unique_ids d -> In r (rows d) -> in_range (grade r) ->
  Database.update_student d (id r) (first_name r) (last_name r) (course r) (grade r) = Ok d.
Proof.
  intros Hu Hr Hg. unfold Database.update_student.
  rewrite (proj2 (existsb_has_id (id r) (rows d)) (ex_intro _ r (conj Hr eq_refl))).
  rewrite (constraints_in_range _ Hg). simpl. destruct d as [l s]. simpl in *. f_equal. f_equal.
  rewrite <- (map_id l) at 2. apply map_ext_in. intros r' Hr'.
  unfold has_id. destruct (Z.eqb_spec (id r') (id r)) as [E | E]; [|reflexivity].
  rewrite (unique_id_eq l r' r Hu Hr' Hr E). destruct r; reflexivity.
Qed.

(** X13. Selecting a row and pressing Update without editing the entries
    leaves the table as it was, and the success dialog is shown. It holds
    for a displayed row that is a stored, valid record of a table with
    distinct ids, when the text shown for its grade reads back as the
    grade. *)
Theorem click_then_update_keeps_table py_float float_str g i it :
  nth_error (tree g) i = Some it ->
  In (values it) (rows (db g)) -> unique_ids (db g) -> valid (values it) ->
  py_float (float_str (grade (values it))) = inr (grade (values it)) ->
  db (run py_float float_str g [Click i; Press_update]) = db g
  /\ dialogs (run py_float float_str g [Click i; Press_update])
     = dialogs g ++ [showinfo (lit "Success") (lit "Student updated successfully")].
Proof.
  intros Hi Hin Hu (Hg & Hf & Hl & Hc) Ef.
  assert (Hlt : (i <? List.length (tree g))%nat = true).
  { apply Nat.ltb_lt, nth_error_Some. rewrite Hi. discriminate. }
  simpl. rewrite Hlt.
  unfold select_student at 1 2. unfold selection. simpl.
  rewrite (selection_select_only (tree g) i it Hi). simpl.
  unfold App.update_student, first_selected, float_of, selection. simpl.
  rewrite (selection_select_only (tree g) i it Hi). simpl.
  rewrite Ef. simpl.
  rewrite (proj2 (invalid_input_false _ _ _ _) (conj Hf (conj Hl (conj Hc Hg)))).
  rewrite (update_same_record (db g) (values it) Hu Hin Hg). simpl.
  split; reflexivity.
Qed.

Lemma click_then_update_keeps_table_witness :
  db (run SampleDecimal.py_float Sample.float_str (startup Sample.seed)
          [Click 1; Press_update]) = Sample.seed
  /\ dialogs (run SampleDecimal.py_float Sample.float_str (startup Sample.seed)
                  [Click 1; Press_update])
     = [showinfo (lit "Success") (lit "Student updated successfully")].
Proof.
  apply (click_then_update_keeps_table SampleDecimal.py_float Sample.float_str
           (startup Sample.seed) 1 (Item Sample.ivan false)).
  - reflexivity.
  - right. left. reflexivity.
  - unfold unique_ids. simpl. repeat constructor; simpl; intuition discriminate.
  - split; [|repeat split; discriminate].
    exists (171 # 2)%Q. split; [reflexivity|]. split; discriminate.
  - reflexivity.
Defined.

Lemma max_rowid_app l l' : max_rowid (l ++ l') = Z.max (max_rowid l) (max_rowid l').
Proof.
  induction l as [|r l IH]; simpl.
  - pose proof (max_rowid_nonneg l'). lia.
  - rewrite IH. lia.
Qed.

Lemma next_rowid_after_add d fn ln c x :
  next_rowid (Table (rows d ++ [Student (next_rowid d) fn ln c x]) (next_rowid d))
  = next_rowid d + 1.
Proof.
  unfold next_rowid at 1. simpl. rewrite max_rowid_app. simpl.
  pose proof (max_rowid_nonneg (rows d)). unfold next_rowid. lia.
Qed.

Lemma add_handler_success py_float g x :
  first_name_entry g <> [] -> last_name_entry g <> [] -> course_entry g <> [] ->
  py_float (grade_entry g) = inr x -> in_range x ->
  fst (App.add_student py_float g)
  = AppState (Table (rows (db g)
                     ++ [Student (next_rowid (db g)) (first_name_entry g)
                                 (last_name_entry g) (course_entry g) x])
                    (next_rowid (db g)))
             (insert_all (rows (db g)
                          ++ [Student (next_rowid (db g)) (first_name_entry g)
                                      (last_name_entry g) (course_entry g) x]))
             (first_name_entry g) (last_name_entry g) (course_entry g) (grade_entry g)
             (search_entry g)
             (dialogs g ++ [showinfo (lit "Success") (lit "Student added successfully")])
             (files g).
Proof.
  intros Hf Hl Hc Ef Hx. unfold App.add_student, float_of. rewrite Ef. simpl.
  rewrite (proj2 (invalid_input_false _ _ _ x) (conj Hf (conj Hl (conj Hc Hx)))).
  rewrite (add_student_in_range (db g) _ _ _ x Hx). reflexivity.
Qed.

(** X14. Add keeps the entries, so a second press stores the same fields
    again: nothing prevents duplicates. With valid entries, two presses of
    Add append two records that differ in their ids only, and the ids are
    consecutive. *)
Theorem add_twice_consecutive_ids py_float float_str g x :
  first_name_entry g <> [] -> last_name_entry g <> [] -> course_entry g <> [] ->
  py_float (grade_entry g) = inr x -> in_range x ->
  rows (db (run py_float float_str g [Press_add; Press_add]))
  = rows (db g)
    ++ [Student (next_rowid (db g)) (first_name_entry g) (last_name_entry g)
                (course_entry g) x;
        Student (next_rowid (db g) + 1) (first_name_entry g) (last_name_entry g)
                (course_entry g) x].
Proof.
  intros Hf Hl Hc Ef Hx.
  change (run py_float float_str g [Press_add; Press_add])
    with (fst (App.add_student py_float (fst (App.add_student py_float g)))).
  rewrite (add_handler_success py_float g x Hf Hl Hc Ef Hx).
  match goal with
  | |- context [fst (App.add_student py_float ?g1)] =>
      rewrite (add_handler_success py_float g1 x Hf Hl Hc Ef Hx)
  end. simpl.
  rewrite next_rowid_after_add, <- app_assoc. reflexivity.
Qed.

Lemma add_twice_consecutive_ids_witness :
  rows (db (run Sample.py_float Sample.float_str
                (Sample.form "Zoe" "Hill" "Law" "60" Sample.seed) [Press_add; Press_add]))
  = rows Sample.seed
    ++ [Student 4 (lit "Zoe") (lit "Hill") (lit "Law") (of_Z 60);
        Student 5 (lit "Zoe") (lit "Hill") (lit "Law") (of_Z 60)].
Proof.
  apply (add_twice_consecutive_ids Sample.py_float Sample.float_str
           (Sample.form "Zoe" "Hill" "Law" "60" Sample.seed) (of_Z 60)).
  - discriminate.
  - discriminate.
  - discriminate.
  - reflexivity.
  - apply in_range_of_Z. lia.
Defined.

(** X15. Search with an empty search entry is a refresh: the list shows
    the whole table again, with no row selected, and nothing else
    changes. *)
Theorem search_empty_entry_refreshes g :
  search_entry g = [] -> App.search_students g = (refresh_students g, Returned).
Proof.
  intros H. unfold App.search_students. rewrite H.
  rewrite search_students_short by (vm_compute; discriminate).
  rewrite filter_all; [reflexivity|].
  intros r _. apply orb_true_iff. left. apply like_percent_percent.
Qed.

Lemma search_empty_entry_refreshes_witness :
  App.search_students
    (run Sample.py_float Sample.float_str (startup Sample.seed)
         [Type_in Search (lit "bo"); Press_search; Type_in Search []])
  = (startup Sample.seed, Returned).
Proof.
  rewrite (search_empty_entry_refreshes
             (run Sample.py_float Sample.float_str (startup Sample.seed)
                  [Type_in Search (lit "bo"); Press_search; Type_in Search []]) eq_refl).
  reflexivity.
Defined.

(** ** Further properties of the export *)

Lemma reader_export float_str d :
  Csv.reader_rows (Database.export_to_csv float_str d)
  = Some (header :: map (csv_fields float_str) (rows d)).
Proof.
  unfold Database.export_to_csv.
  apply (reader_writerows (header :: map (csv_fields float_str) (rows d))).
Qed.

(** X16. The Export button. When the save dialog is cancelled nothing
    happens at all. Otherwise one file is written under the chosen path,
    the reader finds in it the header and the fields of every stored
    record, the success dialog is shown, and the table and the list are
    as before. *)
Theorem export_handler_writes_table float_str g file_path :
  (file_path = [] -> App.export_to_csv float_str g file_path = g)
  /\ (file_path <> [] ->
      exists text,
        files (App.export_to_csv float_str g file_path) = files g ++ [(file_path, text)]
        /\ Csv.reader_rows text = Some (header :: map (csv_fields float_str) (rows (db g)))
        /\ dialogs (App.export_to_csv float_str g file_path)
           = dialogs g ++ [showinfo (lit "Success") (lit "Data exported successfully")]
        /\ db (App.export_to_csv float_str g file_path) = db g
        /\ tree (App.export_to_csv float_str g file_path) = tree g).
Proof.
  unfold App.export_to_csv. split; intros H.
  - rewrite H. reflexivity.
  - apply is_empty_false in H. rewrite H. simpl.
    eexists. split; [reflexivity|].
    split; [apply reader_export|]. repeat split; reflexivity.
Qed.

Lemma export_handler_writes_table_witness :
  App.export_to_csv Sample.float_str (startup Sample.seed) [] = startup Sample.seed
  /\ exists text,
       files (App.export_to_csv Sample.float_str (startup Sample.seed) (lit "out.csv"))
       = [(lit "out.csv", text)]
       /\ Csv.reader_rows text
          = Some (header :: map (csv_fields Sample.float_str) (rows Sample.seed))
       /\ dialogs (App.export_to_csv Sample.float_str (startup Sample.seed) (lit "out.csv"))
          = [showinfo (lit "Success") (lit "Data exported successfully")]
       /\ db (App.export_to_csv Sample.float_str (startup Sample.seed) (lit "out.csv"))
          = Sample.seed
       /\ tree (App.export_to_csv Sample.float_str (startup Sample.seed) (lit "out.csv"))
          = tree (startup Sample.seed).
Proof.
  split.
  - apply (proj1 (export_handler_writes_table Sample.float_str (startup Sample.seed) [])).
    reflexivity.
  - apply (proj2 (export_handler_writes_table Sample.float_str (startup Sample.seed)
                    (lit "out.csv"))).
    discriminate.
Defined.

Lemma int_str_injective a b : int_str a = int_str b -> a = b.
Proof.
  intros H. apply (f_equal int_of_str) in H.
  rewrite !int_of_str_int_str in H. injection H as H. exact H.
Qed.

Lemma csv_fields_determine float_str l1 : forall l2,
  map (csv_fields float_str) l1 = map (csv_fields float_str) l2 ->
  map id l1 = map id l2
  /\ map first_name l1 = map first_name l2
  /\ map last_name l1 = map last_name l2
  /\ map course l1 = map course l2
  /\ map (fun r => float_str (grade r)) l1 = map (fun r => float_str (grade r)) l2.
Proof.
  induction l1 as [|a l1 IH]; intros [|b l2] H; simpl in H; try discriminate.
  - repeat split; reflexivity.
  - unfold csv_fields at 1 3 in H. injection H as Hi Hf Hl Hc Hg H.
    apply int_str_injective in Hi.
    destruct (IH l2 H) as (E1 & E2 & E3 & E4 & E5). simpl.
    rewrite Hi, Hf, Hl, Hc, Hg, E1, E2, E3, E4, E5. repeat split; reflexivity.
Qed.

(** X17. The export loses nothing but the id counter: two tables with the
    same export have the same number of records, with the same ids, first
    names, last names and courses, and the same texts for the grades, row
    by row. *)
Theorem export_determines_rows float_str d1 d2 :
  Database.export_to_csv float_str d1 = Database.export_to_csv float_str d2 ->
  map id (rows d1) = map id (rows d2)
  /\ map first_name (rows d1) = map first_name (rows d2)
  /\ map last_name (rows d1) = map last_name (rows d2)
  /\ map course (rows d1) = map course (rows d2)
  /\ map (fun r => float_str (grade r)) (rows d1)
     = map (fun r => float_str (grade r)) (rows d2).
Proof.
  intros H. apply (f_equal Csv.reader_rows) in H. rewrite !reader_export in H.
  injection H as H. apply (csv_fields_determine float_str _ _ H).
Qed.

Lemma export_determines_rows_witness :
  Database.export_to_csv Sample.float_str Sample.seed
  = Database.export_to_csv Sample.float_str (Table (rows Sample.seed) 7)
  /\ map id (rows Sample.seed) = map id (rows (Table (rows Sample.seed) 7))
  /\ map first_name (rows Sample.seed) = map first_name (rows (Table (rows Sample.seed) 7)).
Proof.
  assert (H : Database.export_to_csv Sample.float_str Sample.seed
              = Database.export_to_csv Sample.float_str (Table (rows Sample.seed) 7))
    by reflexivity.
  split; [exact H|].
  destruct (export_determines_rows Sample.float_str Sample.seed
              (Table (rows Sample.seed) 7) H) as (E1 & E2 & _).
  split; [exact E1 | exact E2].
Defined.

(** ** Update of the selected row *)

Lemma update_keeps_others sid fn ln c x l :
  (forall r, In r l -> id r <> sid) ->
  map (fun r => if has_id sid r then set_fields fn ln c x r else r) l = l.
Proof.
  intros H. rewrite <- (map_id l) at 2. apply map_ext_in. intros r Hr.
  unfold has_id. destruct (Z.eqb_spec (id r) sid) as [E | E]; [|reflexivity].
  exfalso. apply (H r Hr E).
Qed.

Lemma update_unique_split d r fn ln c x :
  unique_ids d -> In r (rows d) -> in_range x ->
  exists pre post,
    rows d = pre ++ r :: post
    /\ Database.update_student d (id r) fn ln c x
       = Ok (Table (pre ++ Student (id r) fn ln c x :: post) (seq d)).
Proof.
  intros Hu Hr Hx.
  pose proof (proj2 (existsb_has_id (id r) (rows d)) (ex_intro _ r (conj Hr eq_refl))) as Ex.
  apply in_split in Hr as (pre & post & Hrows).
  exists pre, post. split; [exact Hrows|].
  unfold Database.update_student. rewrite Ex, (constraints_in_range x Hx). simpl.
  unfold unique_ids in Hu. rewrite Hrows in Hu |- *.
  rewrite map_app in Hu. simpl in Hu. apply NoDup_remove_2 in Hu.
  rewrite map_app. simpl. unfold has_id at 2. rewrite Z.eqb_refl.
  rewrite !update_keeps_others; [reflexivity | |];
    intros y Hy Ey; apply Hu, in_or_app; rewrite <- Ey;
    [right | left]; apply in_map, Hy.
Qed.

(** X18. Update with a row selected and valid entries, in a state that
    user actions lead to from the first launch, changes exactly one
    record, the one shown in the first selected row: it takes the four
    entries and keeps its id and its place; the records before and after
    it are unchanged. *)
Theorem update_student_changes_selected py_float float_str g it sel x :
  reachable py_float float_str g -> selection g = it :: sel ->
  first_name_entry g <> [] -> last_name_entry g <> [] -> course_entry g <> [] ->
  py_float (grade_entry g) = inr x -> in_range x ->
  exists pre post,
    rows (db g) = pre ++ values it :: post
    /\ rows (db (fst (App.update_student py_float g)))
       = pre ++ Student (id (values it)) (first_name_entry g) (last_name_entry g)
                        (course_entry g) x :: post.
Proof.
  intros Hr Hsel Hf Hl Hc Ef Hx.
  assert (Hin : In (values it) (rows (db g))).
  { destruct (view_reachable py_float float_str g Hr) as [keep H].
    assert (Hit : In it (tree g)).
    { assert (Hs : In it (selection g)) by (rewrite Hsel; left; reflexivity).
      apply filter_In in Hs as [Hs _]. exact Hs. }
    apply (in_map values) in Hit. rewrite H in Hit.
    apply filter_In in Hit as [Hit _]. exact Hit. }
  assert (Hu : unique_ids (db g)).
  { destruct Hr as [es ->].
    apply (store_inv_run py_float float_str es (startup initialize_db)
             store_inv_initialize_db). }
  destruct (update_unique_split (db g) (values it) (first_name_entry g) (last_name_entry g)
              (course_entry g) x Hu Hin Hx) as (pre & post & E1 & E2).
  exists pre, post. split; [exact E1|].
  unfold App.update_student, first_selected, float_of. rewrite Hsel, Ef. simpl.
  rewrite (proj2 (invalid_input_false _ _ _ x) (conj Hf (conj Hl (conj Hc Hx)))).
  rewrite E2. reflexivity.
Qed.

Lemma update_student_changes_selected_witness :
  let g := run Sample.py_float Sample.float_str (startup initialize_db)
             [Type_in FirstName (lit "Anna"); Type_in LastName (lit "Lee");
              Type_in Course (lit "Math"); Type_in Grade (lit "90"); Press_add;
              Type_in FirstName (lit "Bob"); Type_in LastName (lit "Smith"); Press_add;
              Click 1; Type_in Course (lit "Art"); Type_in Grade (lit "70")] in
  rows (db (fst (App.update_student Sample.py_float g)))
  = [Student 1 (lit "Anna") (lit "Lee") (lit "Math") (of_Z 90);
     Student 2 (lit "Bob") (lit "Smith") (lit "Art") (of_Z 70)]
  /\ exists pre post,
       rows (db g) = pre ++ Student 2 (lit "Bob") (lit "Smith") (lit "Math") (of_Z 90) :: post
       /\ rows (db (fst (App.update_student Sample.py_float g)))
          = pre ++ Student 2 (lit "Bob") (lit "Smith") (lit "Art") (of_Z 70) :: post.
Proof.
  intros g. split; [reflexivity|].
  apply (update_student_changes_selected Sample.py_float Sample.float_str g
           (Item (Student 2 (lit "Bob") (lit "Smith") (lit "Math") (of_Z 90)) true) []
           (of_Z 70) (ex_intro _ _ eq_refl) eq_refl).
  - discriminate.
  - discriminate.
  - discriminate.
  - reflexivity.
  - apply in_range_of_Z. lia.
Defined.

(** ** Search with a text that does not fit in a pattern *)

(** X19. Search with a text of more than 49998 characters, on a table
    that is not empty: the list has been emptied when the query fails, the
    OperationalError leaves the handler uncaught, no dialog is shown and
    the table is as before. *)
Theorem search_handler_long_text g :
  Like.max_pattern_length - 2 < Z.of_nat (List.length (search_entry g)) ->
  rows (db g) <> [] ->
  App.search_students g
  = (set_tree g [], Uncaught (OperationalError (lit "LIKE or GLOB pattern too complex"))).
Proof.
  intros Hlen Hrows. unfold App.search_students.
  rewrite (search_students_long (db g) (search_entry g)); [reflexivity | lia | exact Hrows].
Qed.

Lemma search_handler_long_text_witness :
  App.search_students (set_entry (startup Sample.seed) Search Sample.long_text)
  = (set_tree (set_entry (startup Sample.seed) Search Sample.long_text) [],
     Uncaught (OperationalError (lit "LIKE or GLOB pattern too complex"))).
Proof.
  apply (search_handler_long_text (set_entry (startup Sample.seed) Search Sample.long_text)).
  - change (search_entry (set_entry (startup Sample.seed) Search Sample.long_text))
      with Sample.long_text.
    rewrite long_text_length. reflexivity.
  - discriminate.
Defined.
